(** * Court booking system: slot generation, reservation and payment webhook

    A shallow embedding of three request handlers of the booking system and
    of the part of the store they touch:

    - [SlotGen]: [generateSlotsForCourt] and [POST] of
      [app/api/generate-slots/route.ts];
    - [CreateBooking]: the [create-booking] edge function and the
      [book-slot] API route, which share one control flow;
    - [StripeWebhook]: the [stripe-webhook] edge function.

    The store (two Postgres tables reached through the Supabase client) and
    the payment gateway are outside the repository.  The tables are modelled
    as lists of rows, one store call is one atomic step, and the outcome of
    every external call that the handlers cannot control (it errors, it
    throws, the identifier the gateway hands out) is an explicit input. *)

From Stdlib Require Import ZArith List String Ascii Bool Lia Sorted DecimalString.
Import ListNotations.

Open Scope string_scope.
Open Scope list_scope.
Open Scope Z_scope.

(** ** Rows of the two tables *)

(** Row identifiers are UUIDs the store hands out; only their equality is
    ever used, so they are numbers here. *)
Definition Id := Z.

(** [bookings.status] is a text column restricted to five values. *)
Inductive Status := pending | confirmed | cancelled | completed | no_show.

Definition Status_eqb (a b : Status) : bool :=
  match a, b with
  | pending, pending | confirmed, confirmed | cancelled, cancelled
  | completed, completed | no_show, no_show => true
  | _, _ => false
  end.

(** A row of [available_slots].  [slot_date] is the calendar day counted
    from 1970-01-01 (the source stores its ISO rendering, the store keeps a
    DATE); the times are the [HH:MM:00] texts the generator builds. *)
Record Slot := mkSlot {
  id : Id;
  court_name : string;
  slot_date : Z;
  start_time : string;
  end_time : string;
  base_price_cents : Z;
  current_price_cents : Z;
  is_available : bool
}.

(** A row of [bookings]. *)
Record Booking := mkBooking {
  booking_id : Id;
  slot_id : Id;
  customer_name : string;
  customer_email : string;
  customer_phone : string;
  stripe_payment_intent_id : string;
  amount_paid_cents : Z;
  status : Status
}.

Record DB := mkDB {
  available_slots : list Slot;
  bookings : list Booking
}.

(** [.single()] of the Supabase client: the row when the query has exactly
    one, no data otherwise. *)
Definition single {A} (rows : list A) : option A :=
  match rows with
  | [r] => Some r
  | _ => None
  end.

(** An identifier no row of the table carries yet. *)
Definition fresh_id (ids : list Id) : Id :=
  1 + fold_right Z.max 0 ids.

(** ** Slot generation *)

Module SlotGen.

(** What the generator pushes for one tick: the columns of the upsert
    payload. *)
Record NewSlot := mkNewSlot {
  n_court_name : string;
  n_slot_date : Z;
  n_start_time : string;
  n_end_time : string;
  n_base_price_cents : Z
}.

(** [n.toString()] for an integer. *)
Definition toString (n : Z) : string := NilZero.string_of_int (Z.to_int n).

(** [s.padStart(2, '0')]. *)
Definition padStart2 (s : string) : string :=
  match String.length s with
  | O => "00"
  | S O => String "0" s
  | _ => s
  end.

(** The template [`${h...}:${m...}:00`]. *)
Definition time_text (h m : Z) : string :=
  (padStart2 (toString h) ++ ":" ++ padStart2 (toString m) ++ ":00")%string.

(** *** Dates

    A [Date] holds an instant; instants are counted here in minutes from
    1970-01-01T00:00Z (every instant the generator meets is a whole minute
    when the offsets of the zone are).  The process's time zone is what
    ECMAScript calls [LocalTZA]: [LocalTZA t true] is the offset of local
    time from UTC at the instant [t], and [LocalTZA t false] the offset
    that belongs to the local time [t], the one before the transition when
    that local time is skipped or repeated. *)
Definition TimeZone := Z -> bool -> Z.

Section Court.

Variable LocalTZA : TimeZone.

(** [LocalTime(t)], [UTC(t)] and [Day(t)] of ECMAScript. *)
Definition LocalTime (t : Z) : Z := t + LocalTZA t true.
Definition UTC (t : Z) : Z := t - LocalTZA t false.
Definition Day (t : Z) : Z := t / 1440.

(** [currentDate.getDay()]: the day of the week of the local day; day 0
    was a Thursday and 0 is Sunday. *)
Definition getDay (currentDate : Z) : Z :=
  (Day (LocalTime currentDate) + 4) mod 7.

(** [currentDate.setDate(currentDate.getDate() + 1)]: the same local time
    on the next local day, as an instant again. *)
Definition next_day (currentDate : Z) : Z :=
  UTC (LocalTime currentDate + 1440).

(** [new Date(text)] for a date-only ISO text: midnight UTC of the day it
    names.  The request gives its two dates as such texts; they are given
    here as the days they name, and [toISOString().split('T')[0]] of an
    instant is the text of [Day]. *)
Definition midnight (day : Z) : Z := day * 1440.

Variable courtName : string.
(** [config.offset_minutes], a whole number of minutes. *)
Variable offset_minutes : Z.

(** The slot pushed by one pass of the inner loop, for the date text
    [slot_date].  [hour] only takes the values 7, 8.5, 10, ...; the loop
    variable here is [half = 2 * hour], which keeps it an integer, so
    [hour * 60] is [half * 30].  [Math.floor(x / 60)] is [x / 60] and the
    JS [%] is [Z.rem]. *)
Definition slot_at (slot_date price half : Z) : NewSlot :=
  let totalMinutes := half * 30 + offset_minutes in
  let startHour := totalMinutes / 60 in
  let startMin := Z.rem totalMinutes 60 in
  let startTime := time_text startHour startMin in
  let endTotalMinutes := totalMinutes + 90 in
  let endHour := endTotalMinutes / 60 in
  let endMin := Z.rem endTotalMinutes 60 in
  let endTime := time_text endHour endMin in
  mkNewSlot courtName slot_date startTime endTime (price * 100).

(** [for (let hour = 7; hour < 23; hour += 1.5) { ...; if (startHour >= 23)
    break; ... }], from the current value of the loop variable. *)
Fixpoint hour_loop (fuel : nat) (slot_date price half : Z) : list NewSlot :=
  match fuel with
  | O => []
  | S fuel' =>
      if half <? 46 then
        let totalMinutes := half * 30 + offset_minutes in
        let startHour := totalMinutes / 60 in
        if startHour >=? 23 then []
        else slot_at slot_date price half
               :: hour_loop fuel' slot_date price (half + 3)
      else []
  end.

(** The loop variable takes at most the eleven values 7, 8.5, ..., 22. *)
Definition hour_fuel : nat := 11.

(** One pass of the [while] loop over the dates, [currentDate] being the
    instant the [Date] holds: the weekday is read from the local day, the
    date text from the UTC day. *)
Definition slots_of_day (currentDate : Z) : list NewSlot :=
  let isWeekend := (getDay currentDate =? 0) || (getDay currentDate =? 6) in
  let price := if isWeekend then 65 else 40 in
  hour_loop hour_fuel (Day currentDate) price 14.

(** [while (currentDate <= endDateObj) { ...; currentDate.setDate(...) }]. *)
Fixpoint date_loop (fuel : nat) (currentDate endDateObj : Z) : list NewSlot :=
  match fuel with
  | O => []
  | S fuel' =>
      if currentDate <=? endDateObj then
        slots_of_day currentDate
        ++ date_loop fuel' (next_day currentDate) endDateObj
      else []
  end.

(** The instants at which the body of that loop runs. *)
Fixpoint visits (fuel : nat) (currentDate endDateObj : Z) : list Z :=
  match fuel with
  | O => []
  | S fuel' =>
      if currentDate <=? endDateObj then
        currentDate :: visits fuel' (next_day currentDate) endDateObj
      else []
  end.

(** Fuel for the loop over the dates: the minutes from the first instant
    to the last, and one.  It is enough in every zone in which [setDate]
    moves the instant forward ([visits_fuel] below). *)
Definition date_fuel (startDate endDate : Z) : nat :=
  Z.to_nat (midnight endDate - midnight startDate + 1).

Definition generateSlotsForCourt (startDate endDate : Z) : list NewSlot :=
  date_loop (date_fuel startDate endDate) (midnight startDate)
            (midnight endDate).

(** The instants one call visits. *)
Definition visited (startDate endDate : Z) : list Z :=
  visits (date_fuel startDate endDate) (midnight startDate) (midnight endDate).

End Court.

(** Three zones.  UTC; a zone that keeps one offset; and Europe/Tallinn as
    it was in 2024: two hours ahead of UTC, three from 2024-03-31T01:00Z
    (day 19813) to 2024-10-27T01:00Z (day 20023). *)
Definition UTC_zone : TimeZone := fun _ _ => 0.

Definition fixed_zone (offset : Z) : TimeZone := fun _ _ => offset.

Definition Tallinn_2024 : TimeZone :=
  fun t isUTC =>
    let spring := 19813 * 1440 + 60 in
    let autumn := 20023 * 1440 + 60 in
    if isUTC then
      if t <? spring then 120 else if t <? autumn then 180 else 120
    else
      if t <? spring + 180 then 120 else if t <? autumn + 180 then 180 else 120.

(** The denotation of a [HH:MM:00] text as minutes since midnight, the way
    the store reads a TIME literal with two-digit fields. *)
Definition digit (c : ascii) : option Z :=
  let n := Z.of_nat (nat_of_ascii c) in
  if (48 <=? n) && (n <=? 57) then Some (n - 48) else None.

Definition minutes_of_time (s : string) : option Z :=
  match s with
  | String h1 (String h2 (String c (String m1 (String m2 rest)))) =>
      if Ascii.eqb c ":" && String.eqb rest ":00" then
        match digit h1, digit h2, digit m1, digit m2 with
        | Some a, Some b, Some c, Some d =>
            if 10 * c + d <? 60 then Some ((10 * a + b) * 60 + (10 * c + d))
            else None
        | _, _, _, _ => None
        end
      else None
  | _ => None
  end.

(** The half-open interval of a generated slot on the absolute time line,
    in minutes since 1970-01-01 00:00. *)
Definition interval (s : NewSlot) : option (Z * Z) :=
  match minutes_of_time (n_start_time s), minutes_of_time (n_end_time s) with
  | Some a, Some b => Some (n_slot_date s * 1440 + a, n_slot_date s * 1440 + b)
  | _, _ => None
  end.

(** Two half-open intervals meet. *)
Definition overlap (a b : NewSlot) : Prop :=
  exists s1 e1 s2 e2,
    interval a = Some (s1, e1) /\ interval b = Some (s2, e2) /\
    s1 < e2 /\ s2 < e1.

(** [a] is over when [b] starts. *)
Definition before (a b : NewSlot) : Prop :=
  forall s1 e1 s2 e2,
    interval a = Some (s1, e1) -> interval b = Some (s2, e2) -> e1 <= s2.

(** *** The [POST] handler and the upsert it issues *)

(** The columns of the conflict target, and what a regeneration has to
    leave alone in a stored row: its identifier (which bookings refer to),
    its key, its availability and its current price. *)
Definition key (r : Slot) : string * Z * string :=
  (court_name r, slot_date r, start_time r).

Definition kept (r : Slot) : Id * (string * Z * string) * bool * Z :=
  (id r, key r, is_available r, current_price_cents r).

(** The conflict target [court_name,slot_date,start_time]. *)
Definition same_key (r : Slot) (n : NewSlot) : bool :=
  String.eqb (court_name r) (n_court_name n)
  && (slot_date r =? n_slot_date n)
  && String.eqb (start_time r) (n_start_time n).

(** [ON CONFLICT ... DO UPDATE]: a row with the key of [n] takes the columns
    of the payload; the payload has no [id], [is_available] or
    [current_price_cents], so these stay. *)
Definition refresh (n : NewSlot) (r : Slot) : Slot :=
  if same_key r n then
    mkSlot (id r) (n_court_name n) (n_slot_date n) (n_start_time n)
           (n_end_time n) (n_base_price_cents n)
           (current_price_cents r) (is_available r)
  else r.

(** A row inserted from the payload takes the column defaults: a new
    identifier, [is_available = TRUE], the current price equal to the base
    price. *)
Definition inserted (t : list Slot) (n : NewSlot) : Slot :=
  mkSlot (fresh_id (map id t)) (n_court_name n) (n_slot_date n)
         (n_start_time n) (n_end_time n) (n_base_price_cents n)
         (n_base_price_cents n) true.

Definition upsert_row (t : list Slot) (n : NewSlot) : list Slot :=
  if existsb (fun r => same_key r n) t then map (refresh n) t
  else t ++ [inserted t n].

(** [.upsert(slots, { onConflict: 'court_name,slot_date,start_time' })],
    the payload rows taken in order. *)
Definition upsert (t : list Slot) (rows : list NewSlot) : list Slot :=
  fold_left upsert_row rows t.


Inductive Response :=
| Created (slotsCreated : nat)   (* 200 { success: true, slotsCreated } *)
| Failed.                        (* 500 { error } *)

(** [for (const [courtName, config] of Object.entries(courts))
    slots.push(...)]. *)
Definition all_slots (LocalTZA : TimeZone) (courts : list (string * Z))
    (startDate endDate : Z) : list NewSlot :=
  flat_map (fun c => generateSlotsForCourt LocalTZA (fst c) (snd c)
                       startDate endDate)
           courts.

(** The handler.  [courtConfig] is what the query on [business_rules]
    returned ([None] when it has no single row: the handler then goes on
    with no court); [upsert_error] says whether the store reported an error
    for the upsert, which then writes nothing.  The store decides that: it
    refuses, for one, a payload that names a key twice or a time past
    24:00. *)
Definition POST (LocalTZA : TimeZone)
    (courtConfig : option (list (string * Z))) (upsert_error : bool)
    (db : DB) (startDate endDate : Z) : DB * Response :=
  let courts := match courtConfig with Some c => c | None => [] end in
  let slots := all_slots LocalTZA courts startDate endDate in
  if upsert_error then (db, Failed)
  else (mkDB (upsert (available_slots db) slots) (bookings db),
        Created (List.length slots)).

End SlotGen.

(** ** Reservation: the [create-booking] handlers *)

Module CreateBooking.

(** The JSON body of the request, parsed. *)
Record Request := mkRequest {
  slotId : Id;
  customerName : string;
  customerEmail : string;
  customerPhone : string
}.

(** What the gateway returns: a Checkout Session ([id], [url]) for the edge
    function, a Payment Intent ([id], [client_secret]) for the API route. *)
Record Session := mkSession {
  session_id : string;
  session_secret : string
}.

(** The two copies of the handler differ in the gateway object they create
    and in the body of the success response only. *)
Inductive Handler := edge_function | api_route.

(** The outcome of each external call of one invocation.  [gateway = None]
    is a gateway call that throws. *)
Record Outcomes := mkOutcomes {
  select_error : bool;
  gateway : option Session;
  insert_error : bool;
  update_error : bool
}.

Inductive Response :=
| SlotNotAvailable                  (* 400 { error: 'Slot not available' } *)
| Success (bookingId : Id) (secret : string) (sessionId : option string)
                                    (* 200 { success: true, ... } *)
| ServerError.                      (* 500 { error: error.message } *)

(** Where an invocation stands between two awaited calls, with the locals
    it holds there. *)
Inductive Pc :=
| AtSelect
| AtGateway (slot : Slot)
| AtInsert (slot : Slot) (session : Session)
| AtUpdate (booking : Booking) (session : Session)
| Done (r : Response).

(** The external call an invocation issues next. *)
Inductive Call :=
| SelectSlot (slot_id : Id)
| CreatePayment (amount : Z) (slot_id : Id)
| InsertBooking (b : Booking)
| MarkUnavailable (slot_id : Id).

(** [.from('available_slots').select('*').eq('id', slotId)
     .eq('is_available', true)]. *)
Definition select_available (db : DB) (i : Id) : list Slot :=
  filter (fun s => (id s =? i) && is_available s) (available_slots db).

(** [.from('available_slots').update({ is_available: v }).eq('id', i)]. *)
Definition set_available (v : bool) (i : Id) (t : list Slot) : list Slot :=
  map (fun s =>
         if id s =? i then
           mkSlot (id s) (court_name s) (slot_date s) (start_time s)
                  (end_time s) (base_price_cents s) (current_price_cents s) v
         else s) t.


(** The row the handler inserts; the store supplies the identifier. *)
Definition new_booking (db : DB) (req : Request) (slot : Slot)
    (session : Session) : Booking :=
  mkBooking (fresh_id (map booking_id (bookings db)))
            (slotId req) (customerName req) (customerEmail req)
            (customerPhone req) (session_id session)
            (base_price_cents slot) pending.

(** [stripe_payment_intent_id] is declared UNIQUE. *)
Definition reference_taken (db : DB) (ref : string) : bool :=
  existsb (fun b => String.eqb (stripe_payment_intent_id b) ref) (bookings db).

Definition success_body (h : Handler) (booking : Booking) (session : Session)
  : Response :=
  match h with
  | edge_function =>
      Success (booking_id booking) (session_secret session)
              (Some (session_id session))
  | api_route => Success (booking_id booking) (session_secret session) None
  end.

Section Invocation.

Variable h : Handler.
Variable req : Request.
Variable o : Outcomes.

Definition next_call (db : DB) (pc : Pc) : option Call :=
  match pc with
  | AtSelect => Some (SelectSlot (slotId req))
  | AtGateway slot => Some (CreatePayment (base_price_cents slot) (slotId req))
  | AtInsert slot session => Some (InsertBooking (new_booking db req slot session))
  | AtUpdate _ _ => Some (MarkUnavailable (slotId req))
  | Done _ => None
  end.

(** One awaited call and the code up to the next one. *)
Definition step (db : DB) (pc : Pc) : DB * Pc :=
  match pc with
  | AtSelect =>
      let slot := if select_error o then None
                  else single (select_available db (slotId req)) in
      match slot with
      | None => (db, Done SlotNotAvailable)
      | Some slot => (db, AtGateway slot)
      end
  | AtGateway slot =>
      match gateway o with
      | None => (db, Done ServerError)
      | Some session => (db, AtInsert slot session)
      end
  | AtInsert slot session =>
      if insert_error o || reference_taken db (session_id session)
      then (db, Done ServerError)
      else
        let booking := new_booking db req slot session in
        (mkDB (available_slots db) (bookings db ++ [booking]),
         AtUpdate booking session)
  | AtUpdate booking session =>
      (* the result of the update is not looked at *)
      let db' := if update_error o then db
                 else mkDB (set_available false (slotId req) (available_slots db))
                           (bookings db) in
      (db', Done (success_body h booking session))
  | Done r => (db, Done r)
  end.

(** An invocation run alone, with the calls it issued and the store each was
    issued against. *)
Fixpoint run_from (fuel : nat) (db : DB) (pc : Pc)
  : DB * Pc * list (DB * Call) :=
  match fuel with
  | O => (db, pc, [])
  | S fuel' =>
      match next_call db pc with
      | None => (db, pc, [])
      | Some c =>
          let '(db1, pc1) := step db pc in
          let '(db2, pc2, log) := run_from fuel' db1 pc1 in
          (db2, pc2, (db, c) :: log)
      end
  end.

End Invocation.

(** A handler makes at most four calls ([create_booking_responds] below:
    every invocation reaches its response within them). *)
Definition call_fuel : nat := 4.

(** One whole invocation against [db], nothing else running. *)
Definition create_booking (h : Handler) (req : Request) (o : Outcomes) (db : DB)
  : DB * option Response * list (DB * Call) :=
  let '(db', pc, log) := run_from h req o call_fuel db AtSelect in
  (db', match pc with Done r => Some r | _ => None end, log).

Definition final_db (x : DB * option Response * list (DB * Call)) : DB :=
  fst (fst x).
Definition response (x : DB * option Response * list (DB * Call))
  : option Response := snd (fst x).
Definition calls (x : DB * option Response * list (DB * Call))
  : list (DB * Call) := snd x.

(** Invocations one after the other, each against the store the previous
    one left. *)
Fixpoint serve_in_turn (h : Handler) (db : DB) (rs : list (Request * Outcomes))
  : DB * list (option Response) :=
  match rs with
  | [] => (db, [])
  | (req, o) :: rs' =>
      let x := create_booking h req o db in
      let '(db', out) := serve_in_turn h (final_db x) rs' in
      (db', response x :: out)
  end.

(** Invocations in flight together.  Each has its request, its outcomes and
    its own position; the store is shared, and a schedule names the
    invocation whose next call the store serves. *)
Record Thread := mkThread {
  t_req : Request;
  t_outcomes : Outcomes;
  t_pc : Pc
}.

Fixpoint step_nth (h : Handler) (db : DB) (ts : list Thread) (i : nat)
  : DB * list Thread :=
  match ts, i with
  | [], _ => (db, [])
  | t :: ts', O =>
      let '(db', pc') := step h (t_req t) (t_outcomes t) db (t_pc t) in
      (db', mkThread (t_req t) (t_outcomes t) pc' :: ts')
  | t :: ts', S i' =>
      let '(db', ts'') := step_nth h db ts' i' in
      (db', t :: ts'')
  end.

Fixpoint interleave (h : Handler) (db : DB) (ts : list Thread)
    (schedule : list nat) : DB * list Thread :=
  match schedule with
  | [] => (db, ts)
  | i :: schedule' =>
      let '(db', ts') := step_nth h db ts i in
      interleave h db' ts' schedule'
  end.

Definition start (r : Request * Outcomes) : Thread :=
  mkThread (fst r) (snd r) AtSelect.

Definition is_success (pc : Pc) : bool :=
  match pc with
  | Done (Success _ _ _) => true
  | _ => false
  end.

Definition is_unavailable (pc : Pc) : bool :=
  match pc with
  | Done SlotNotAvailable => true
  | _ => false
  end.

Definition finished (pc : Pc) : bool :=
  match pc with
  | Done _ => true
  | _ => false
  end.

Definition succeeded (r : option Response) : bool :=
  match r with
  | Some (Success _ _ _) => true
  | _ => false
  end.

(** The slot row with identifier [i] is marked available. *)
Definition marked_available (db : DB) (i : Id) : bool :=
  existsb (fun s => (id s =? i) && is_available s) (available_slots db).

End CreateBooking.

(** ** Payment notifications: the [stripe-webhook] handler *)

Module StripeWebhook.

(** The verified event: [event.type] and [event.data.object.id]. *)
Record Event := mkEvent {
  type : string;
  object_id : string
}.

(** The incoming request: the [Stripe-Signature] header and the raw body. *)
Record Delivery := mkDelivery {
  signature : option string;
  body : string
}.

(** Outcomes of the store calls of one invocation: whether each reported an
    error.  None of them is checked by the handler except for a log line. *)
Record Outcomes := mkOutcomes {
  confirm_error : bool;
  lookup_error : bool;
  delete_error : bool;
  release_error : bool
}.

Inductive Response :=
| SignatureMissing       (* 400 'Webhook signature missing' *)
| VerificationFailed     (* 400 'Webhook signature verification failed' *)
| Received.              (* 200 { received: true } *)

(** [!x] for a header or environment value: absent or empty. *)
Definition falsy (x : option string) : bool :=
  match x with
  | None => true
  | Some s => String.eqb s ""
  end.

Definition has_reference (ref : string) (b : Booking) : bool :=
  String.eqb (stripe_payment_intent_id b) ref.

(** [.from('bookings').update({ status: 'confirmed' })
     .eq('stripe_payment_intent_id', ref)]. *)
Definition as_confirmed (b : Booking) : Booking :=
  mkBooking (booking_id b) (slot_id b) (customer_name b) (customer_email b)
            (customer_phone b) (stripe_payment_intent_id b)
            (amount_paid_cents b) confirmed.

Definition confirm (ref : string) (bs : list Booking) : list Booking :=
  map (fun b => if has_reference ref b then as_confirmed b else b) bs.

(** The [switch (event.type)]. *)
Definition handle_event (o : Outcomes) (db : DB) (event : Event) : DB :=
  if String.eqb (type event) "checkout.session.completed" then
    if confirm_error o then db
    else mkDB (available_slots db) (confirm (object_id event) (bookings db))
  else if String.eqb (type event) "checkout.session.expired" then
    let expiredBooking :=
      if lookup_error o then None
      else single (map slot_id
                       (filter (has_reference (object_id event)) (bookings db))) in
    match expiredBooking with
    | Some expired_slot_id =>
        let bs := if delete_error o then bookings db
                  else filter (fun b => negb (has_reference (object_id event) b))
                              (bookings db) in
        let ss := if release_error o then available_slots db
                  else CreateBooking.set_available true expired_slot_id
                         (available_slots db) in
        mkDB ss bs
    | None => db
    end
  else db.

Section Handler.

(** [STRIPE_WEBHOOK_SIGNING_SECRET] and the gateway library's
    [constructEventAsync body signature secret]; [None] is a verification
    that throws. *)
Variable endpointSecret : option string.
Variable constructEvent : string -> string -> string -> option Event.

Definition webhook (o : Outcomes) (db : DB) (req : Delivery) : DB * Response :=
  if falsy (signature req) || falsy endpointSecret then (db, SignatureMissing)
  else
    match signature req, endpointSecret with
    | Some sig, Some secret =>
        match constructEvent (body req) sig secret with
        | None => (db, VerificationFailed)
        | Some event => (handle_event o db event, Received)
        end
    | _, _ => (db, SignatureMissing)
    end.

End Handler.

End StripeWebhook.

(** ** A small store to run the handlers on *)

Module Scenario.

Import CreateBooking.

(** Court A on Wednesday 2024-01-03, 07:00-08:30, free. *)
Definition morning_slot : Slot :=
  mkSlot 1 "Court A" 19725 "07:00:00" "08:30:00" 4000 5000 true.

Definition store : DB := mkDB [morning_slot] [].

Definition alice : Request := mkRequest 1 "Alice" "alice@example.com" "111".
Definition bob : Request := mkRequest 1 "Bob" "bob@example.com" "222".

(** Every call goes through; the gateway hands out the given session. *)
Definition all_fine (session : string) : Outcomes :=
  mkOutcomes false (Some (mkSession session "https://pay")) false false.

(** Every call goes through but the last update. *)
Definition update_lost (session : string) : Outcomes :=
  mkOutcomes false (Some (mkSession session "https://pay")) false true.

(** Every call goes through but the gateway's. *)
Definition gateway_down : Outcomes := mkOutcomes false None false false.

(** The store after Alice's booking for the slot was paid and confirmed. *)
Definition paid_booking : Booking :=
  mkBooking 1 1 "Alice" "alice@example.com" "111" "cs_alice" 4000 confirmed.

Definition sold_store : DB :=
  mkDB [mkSlot 1 "Court A" 19725 "07:00:00" "08:30:00" 4000 5000 false]
       [paid_booking].

End Scenario.

(** ** The payload seen from the table *)

Module Payload.

Import SlotGen.

(** The conflict target of a payload row. *)
Definition n_key (n : NewSlot) : string * Z * string :=
  (n_court_name n, n_slot_date n, n_start_time n).

(** The columns of a stored row that the payload supplies. *)
Definition payload_of (r : Slot) : NewSlot :=
  mkNewSlot (court_name r) (slot_date r) (start_time r) (end_time r)
            (base_price_cents r).

End Payload.

(** ** The customer's page: [SlotPicker] and [BookingForm] *)

Module SlotPicker.

(** [.order('slot_date').order('start_time')]: by date, then by start time.
    The store keeps times as [HH:MM:SS], on which the order of the texts is
    the order of the times. *)
Definition listed_before (a b : Slot) : bool :=
  (slot_date a <? slot_date b)
  || ((slot_date a =? slot_date b) && String.leb (start_time a) (start_time b)).

Fixpoint insert_row (x : Slot) (l : list Slot) : list Slot :=
  match l with
  | [] => [x]
  | y :: l' => if listed_before x y then x :: l else y :: insert_row x l'
  end.

Definition order_rows (l : list Slot) : list Slot :=
  fold_right insert_row [] l.

(** The query of [fetchSlots]: the rows marked available whose date lies
    between the two dates, ordered.  [today] and [nextWeek] are the days of
    the two ISO dates the clock gave. *)
Definition query (db : DB) (today nextWeek : Z) : list Slot :=
  order_rows
    (filter (fun s => is_available s && (today <=? slot_date s)
                      && (slot_date s <=? nextWeek))
            (available_slots db)).

(** The state of the component. *)
Record State := mkState {
  slots : list Slot;
  selectedSlot : option Slot;
  loading : bool
}.

Definition initial : State := mkState [] None true.

(** [fetchSlots]: [if (data) setSlots(data); setLoading(false)].  With an
    error the store returns no data and the listed slots stay. *)
Definition fetchSlots (fetch_error : bool) (db : DB) (today nextWeek : Z)
    (st : State) : State :=
  let data := if fetch_error then None else Some (query db today nextWeek) in
  mkState (match data with Some d => d | None => slots st end)
          (selectedSlot st) false.

(** [onClick={() => setSelectedSlot(slot)}]. *)
Definition setSelectedSlot (slot : Slot) (st : State) : State :=
  mkState (slots st) (Some slot) (loading st).

(** The buttons of one court's card:
    [slots.filter(slot => slot.court_name === courtName).slice(0, 6)]. *)
Definition buttons (courtName : string) (l : list Slot) : list Slot :=
  firstn 6 (filter (fun slot => String.eqb (court_name slot) courtName) l).

(** What is rendered: the spinner, or one card per court of the fixed list
    (its buttons, and whether it carries the "No available slots" line)
    and the booking form of the selected slot. *)
Inductive View :=
| Spinner
| Page (cards : list (string * list Slot * bool)) (form : option Slot).

Definition render (st : State) : View :=
  if loading st then Spinner
  else
    Page (map (fun courtName =>
                 (courtName, buttons courtName (slots st),
                  Nat.eqb (List.length
                             (filter (fun slot =>
                                        String.eqb (court_name slot) courtName)
                                     (slots st))) 0))
              ["Court A"; "Court B"])
         (selectedSlot st).

(** What became of the request [handleSubmit] sends: it never reached the
    function, the function ran but its reply did not arrive as JSON, or the
    reply arrived. *)
Inductive Network := unreachable | reply_lost | delivered.

(** What the customer gets to see. *)
Inductive Shown :=
| Redirected (checkoutUrl : string)
| Alerted (text : string).

(** [handleSubmit] of the form for [slot], against the [create-booking]
    edge function.  [message] is the text of the error a failing handler
    reports. *)
Definition handleSubmit (net : Network) (o : CreateBooking.Outcomes)
    (message : string) (slot : Slot) (name email phone : string) (db : DB)
  : DB * Shown :=
  match net with
  | unreachable => (db, Alerted "Booking failed")
  | reply_lost =>
      let x := CreateBooking.create_booking CreateBooking.edge_function
                 (CreateBooking.mkRequest (id slot) name email phone) o db in
      (CreateBooking.final_db x, Alerted "Booking failed")
  | delivered =>
      let x := CreateBooking.create_booking CreateBooking.edge_function
                 (CreateBooking.mkRequest (id slot) name email phone) o db in
      (CreateBooking.final_db x,
       match CreateBooking.response x with
       | Some (CreateBooking.Success _ checkoutUrl _) => Redirected checkoutUrl
       | Some CreateBooking.SlotNotAvailable =>
           Alerted "Error: Slot not available"
       | Some CreateBooking.ServerError => Alerted ("Error: " ++ message)%string
       | None => Alerted "Booking failed"
       end)
  end.

End SlotPicker.

(** ** The service client: [getSupabaseAdmin] *)

Module SupabaseAdmin.

(** What [createClient] was given. *)
Record Client := mkClient {
  client_url : string;
  client_key : string
}.

(** Where the function runs: whether [window] is defined, and the
    environment variable it reads. *)
Record Env := mkEnv {
  window_defined : bool;
  SUPABASE_SERVICE_ROLE_KEY : option string
}.

(** [getSupabaseAdmin]: the module variable after the call, which is also
    what the call returns. *)
Definition getSupabaseAdmin (supabaseUrl : string) (env : Env)
    (supabaseAdmin : option Client) : option Client :=
  match supabaseAdmin with
  | Some c => Some c
  | None =>
      if negb (window_defined env) then
        match SUPABASE_SERVICE_ROLE_KEY env with
        | Some serviceRoleKey =>
            if String.eqb serviceRoleKey "" then None
            else Some (mkClient supabaseUrl serviceRoleKey)
        | None => None
        end
      else None
  end.

(** Calls one after the other, each where its environment says. *)
Definition calls_in_turn (supabaseUrl : string) (envs : list Env)
    (supabaseAdmin : option Client) : option Client :=
  fold_left (fun admin env => getSupabaseAdmin supabaseUrl env admin)
            envs supabaseAdmin.

End SupabaseAdmin.

(** * Properties *)

(** ** Store helpers *)

Lemma fresh_id_above (ids : list Id) (i : Id) : In i ids -> i < fresh_id ids.
Proof.
  unfold fresh_id. induction ids as [|a ids IH]; cbn [In fold_right]; [tauto|].
  intros [->|Hin]; [lia|]. specialize (IH Hin). lia.
Qed.

(** ** The slot generator *)

Section SlotGenFacts.

Import SlotGen.

(** Linear goals with [Math.floor(x / 60)] and [x % 60] in them. *)
Ltac div_lia := Z.div_mod_to_equations; lia.

(** *** Time texts *)

(** Every hour below 100 and minute below 60 is rendered as a text that
    reads back as the same minute of the day. *)
Lemma time_text_table :
  forallb (fun h => forallb (fun m =>
    match minutes_of_time (time_text (Z.of_nat h) (Z.of_nat m)) with
    | Some t => t =? Z.of_nat h * 60 + Z.of_nat m
    | None => false
    end) (seq 0 60)) (seq 0 100) = true.
Proof. vm_compute. reflexivity. Qed.

Lemma minutes_of_time_text (h m : Z) :
  0 <= h < 100 -> 0 <= m < 60 ->
  minutes_of_time (time_text h m) = Some (h * 60 + m).
Proof.
  intros Hh Hm.
  pose proof time_text_table as T.
  rewrite forallb_forall in T.
  specialize (T (Z.to_nat h)).
  rewrite in_seq, forallb_forall in T.
  assert (Hin : (0 <= Z.to_nat h < 0 + 100)%nat) by lia.
  specialize (T Hin (Z.to_nat m)).
  rewrite in_seq in T.
  assert (Hin' : (0 <= Z.to_nat m < 0 + 60)%nat) by lia.
  specialize (T Hin').
  rewrite !Z2Nat.id in T by lia.
  destruct (minutes_of_time (time_text h m)) as [t|]; [|discriminate].
  apply Z.eqb_eq in T. now subst.
Qed.

(** A text that denotes a time starts with two digits. *)
Lemma minutes_of_time_digits (s : string) (t : Z) :
  minutes_of_time s = Some t ->
  exists c1 c2 rest,
    s = String c1 (String c2 rest) /\ digit c1 <> None /\ digit c2 <> None.
Proof.
  destruct s as [|c1 [|c2 [|c3 [|c4 [|c5 rest]]]]]; cbn [minutes_of_time];
    try discriminate.
  destruct (_ && _); [|discriminate].
  destruct (digit c1) eqn:D1; [|discriminate].
  destruct (digit c2) eqn:D2; [|discriminate].
  intros _. exists c1, c2. eexists. repeat split; congruence.
Qed.

(** The text of a negative hour carries a sign among its first two
    characters and denotes no time. *)
Lemma minutes_of_time_negative (h m : Z) :
  h < 0 -> minutes_of_time (time_text h m) = None.
Proof.
  intros Hh. destruct h as [|p|p]; try lia.
  destruct (minutes_of_time (time_text (Z.neg p) m)) as [t|] eqn:E; [|reflexivity].
  apply minutes_of_time_digits in E.
  destruct E as (c1 & c2 & rest & E & D1 & D2). exfalso.
  unfold time_text, toString in E. cbn [Z.to_int NilZero.string_of_int] in E.
  unfold padStart2 at 1 in E. cbn [String.length] in E.
  destruct (NilZero.string_of_uint (Pos.to_uint p)) as [|d1 s1];
    cbn [String.length append] in E.
  - injection E as _ <- _. apply D2. reflexivity.
  - destruct s1; cbn [String.length append] in E;
      injection E as <- _; apply D1; reflexivity.
Qed.

(** *** One slot *)

Section OneCourt.

Variable LocalTZA : TimeZone.
Variable courtName : string.
Variable offset_minutes : Z.

Local Abbreviation slot_at := (slot_at courtName offset_minutes).
Local Abbreviation hour_loop := (hour_loop courtName offset_minutes).
Local Abbreviation slots_of_day :=
  (slots_of_day LocalTZA courtName offset_minutes).
Local Abbreviation date_loop := (date_loop LocalTZA courtName offset_minutes).
Local Abbreviation price_at t :=
  (if (getDay LocalTZA t =? 0) || (getDay LocalTZA t =? 6) then 65 else 40).

(** A slot whose start is a time of the day lies where the loop variable
    says: [half * 30 + offset_minutes] minutes into its date, for ninety
    minutes. *)
Lemma interval_slot_at (d p half : Z) :
  0 <= half * 30 + offset_minutes ->
  (half * 30 + offset_minutes) / 60 < 23 ->
  interval (slot_at d p half)
  = Some (d * 1440 + (half * 30 + offset_minutes),
          d * 1440 + (half * 30 + offset_minutes) + 90).
Proof.
  intros H0 H23. unfold interval, SlotGen.slot_at.
  cbn [n_start_time n_end_time n_slot_date].
  set (t := half * 30 + offset_minutes) in *.
  rewrite !Z.rem_mod_nonneg by lia.
  rewrite !minutes_of_time_text.
  - f_equal. f_equal; [|]; div_lia.
  - div_lia.
  - div_lia.
  - div_lia.
  - div_lia.
Qed.

(** Whatever the offset, a slot that has an interval has that one. *)
Lemma interval_slot_at_inv (d p half s e : Z) :
  (half * 30 + offset_minutes) / 60 < 23 ->
  interval (slot_at d p half) = Some (s, e) ->
  s = d * 1440 + (half * 30 + offset_minutes) /\ e = s + 90.
Proof.
  intros H23 E.
  destruct (Z_lt_le_dec (half * 30 + offset_minutes) 0) as [Hneg|Hpos].
  - exfalso. unfold interval, SlotGen.slot_at in E.
    cbn [n_start_time n_end_time n_slot_date] in E.
    rewrite minutes_of_time_negative in E; [discriminate|].
    div_lia.
  - rewrite interval_slot_at in E by assumption.
    injection E as <- <-. lia.
Qed.

(** *** The two loops *)

(** The inner loop pushes one slot for each value of its variable that is
    below 23 hours and whose start hour is: the guard of the [for] and the
    [break] cut the same tail, since both only grow. *)
Lemma hour_loop_In (fuel : nat) (d p half : Z) (s : NewSlot) :
  In s (hour_loop fuel d p half) <->
  exists j : nat,
    (j < fuel)%nat /\ half + 3 * Z.of_nat j < 46 /\
    ((half + 3 * Z.of_nat j) * 30 + offset_minutes) / 60 < 23 /\
    s = slot_at d p (half + 3 * Z.of_nat j).
Proof.
  revert half. induction fuel as [|fuel IH]; intros half; cbn [SlotGen.hour_loop].
  - split; [intros []|]. intros (j & Hj & _). lia.
  - destruct (Z.ltb_spec half 46) as [H46|H46].
    + destruct (Z.geb_spec ((half * 30 + offset_minutes) / 60) 23) as [H23|H23].
      * split; [intros []|]. intros (j & _ & _ & Hj & _).
        exfalso. div_lia.
      * cbn [In]. rewrite IH. split.
        -- intros [<-|(j & Hj & Hlt & Hh & ->)].
           ++ exists 0%nat. rewrite Z.mul_0_r, Z.add_0_r. repeat split; lia.
           ++ exists (S j).
              replace (half + 3 * Z.of_nat (S j)) with (half + 3 + 3 * Z.of_nat j) by lia.
              repeat split; try lia.
        -- intros (j & Hj & Hlt & Hh & ->). destruct j as [|j].
           ++ left. now rewrite Z.mul_0_r, Z.add_0_r.
           ++ right. exists j.
              replace (half + 3 + 3 * Z.of_nat j) with (half + 3 * Z.of_nat (S j)) by lia.
              repeat split; try lia.
    + split; [intros []|]. intros (j & _ & Hj & _). lia.
Qed.

(** The slots of one pass: one for every tick [k] of ninety minutes from
    [7 * 60 + offset_minutes] that starts before 23:00, under the date of
    the UTC day and at the price of the local weekday. *)
Lemma slots_of_day_In (t : Z) (s : NewSlot) :
  In s (slots_of_day t) <->
  exists k,
    0 <= k <= 10 /\ 420 + offset_minutes + 90 * k < 1380 /\
    s = slot_at (Day t) (price_at t) (14 + 3 * k).
Proof.
  unfold SlotGen.slots_of_day, hour_fuel. rewrite hour_loop_In. split.
  - intros (j & Hj & Hlt & Hh & ->). exists (Z.of_nat j).
    repeat split; try lia. div_lia.
  - intros (k & Hk & Hlt & ->). exists (Z.to_nat k).
    rewrite Z2Nat.id by lia. repeat split; try lia.
    div_lia.
Qed.

(** The outer loop is one pass for each instant it visits. *)
Lemma date_loop_visits (fuel : nat) (c e : Z) :
  date_loop fuel c e = flat_map slots_of_day (visits LocalTZA fuel c e).
Proof.
  revert c. induction fuel as [|fuel IH]; intros c;
    cbn [SlotGen.date_loop visits]; [reflexivity|].
  destruct (c <=? e); [|reflexivity]. cbn [flat_map]. now rewrite IH.
Qed.

Lemma generateSlotsForCourt_visited (startDate endDate : Z) :
  generateSlotsForCourt LocalTZA courtName offset_minutes startDate endDate
  = flat_map slots_of_day (visited LocalTZA startDate endDate).
Proof. apply date_loop_visits. Qed.

Lemma generateSlotsForCourt_In (startDate endDate : Z) (s : NewSlot) :
  In s (generateSlotsForCourt LocalTZA courtName offset_minutes
          startDate endDate) <->
  exists t, In t (visited LocalTZA startDate endDate) /\ In s (slots_of_day t).
Proof. rewrite generateSlotsForCourt_visited. apply in_flat_map. Qed.

Lemma generateSlotsForCourt_court (startDate endDate : Z) (s : NewSlot) :
  In s (generateSlotsForCourt LocalTZA courtName offset_minutes
          startDate endDate) ->
  n_court_name s = courtName.
Proof.
  rewrite generateSlotsForCourt_In. intros (t & _ & Hin).
  apply slots_of_day_In in Hin. now destruct Hin as (k & _ & _ & ->).
Qed.

End OneCourt.

(** *** The instants visited *)

Section Visits.

Variable LocalTZA : TimeZone.

(** When [setDate] moves the instant forward, the loop ends by its guard:
    more fuel than the minutes left makes no difference. *)
Lemma visits_fuel (f f' : nat) (c e : Z) :
  (forall t, t < next_day LocalTZA t) ->
  e - c < Z.of_nat f -> e - c < Z.of_nat f' ->
  visits LocalTZA f c e = visits LocalTZA f' c e.
Proof.
  intros Hadv. revert f' c.
  induction f as [|f IH]; intros [|f'] c Hf Hf'; cbn [visits];
    try reflexivity.
  - destruct (Z.leb_spec c e); [lia|reflexivity].
  - destruct (Z.leb_spec c e); [lia|reflexivity].
  - destruct (Z.leb_spec c e); [|reflexivity].
    f_equal. specialize (Hadv c). apply IH; lia.
Qed.

(** A range that does not end before it starts is entered at the midnight
    of its start date. *)
Lemma visited_first (startDate endDate : Z) :
  startDate <= endDate ->
  exists rest, visited LocalTZA startDate endDate = midnight startDate :: rest.
Proof.
  intros Hle. unfold visited, date_fuel, midnight.
  destruct (Z.to_nat (endDate * 1440 - startDate * 1440 + 1)) as [|f] eqn:E;
    [lia|].
  cbn [visits]. destruct (Z.leb_spec (startDate * 1440) (endDate * 1440));
    [|lia].
  eexists. reflexivity.
Qed.

Lemma visited_empty (startDate endDate : Z) :
  endDate < startDate -> visited LocalTZA startDate endDate = [].
Proof.
  intros Hlt. unfold visited, date_fuel, midnight.
  destruct (Z.to_nat _) as [|f]; [reflexivity|]. cbn [visits].
  destruct (Z.leb_spec (startDate * 1440) (endDate * 1440)); [lia|reflexivity].
Qed.

Lemma Day_midnight (d : Z) : Day (midnight d) = d.
Proof. unfold Day, midnight. apply Z.div_mul. lia. Qed.

(** In a zone that keeps one offset [setDate] adds a day of 1440 minutes,
    and the instants visited are the midnights of the dates of the range,
    in order. *)
Section OneOffset.

Variable offset : Z.
Hypothesis one_offset : forall t b, LocalTZA t b = offset.

Lemma next_day_one_offset (t : Z) : next_day LocalTZA t = t + 1440.
Proof. unfold next_day, UTC, LocalTime. rewrite !one_offset. lia. Qed.

Lemma getDay_one_offset (d : Z) :
  getDay LocalTZA (midnight d) = (d + offset / 1440 + 4) mod 7.
Proof.
  unfold getDay, LocalTime, Day, midnight. rewrite one_offset.
  f_equal. f_equal. rewrite Z.add_comm, Z.div_add by lia. lia.
Qed.

Lemma visits_one_offset (f : nat) (d e : Z) :
  visits LocalTZA f (midnight d) (midnight e)
  = map (fun i => midnight (d + Z.of_nat i))
        (seq 0 (Nat.min f (Z.to_nat (e - d + 1)))).
Proof.
  revert d. induction f as [|f IH]; intros d; cbn [visits]; [reflexivity|].
  unfold midnight at 1 2.
  destruct (Z.leb_spec (d * 1440) (e * 1440)) as [Hle|Hgt].
  - rewrite next_day_one_offset.
    replace (midnight d + 1440) with (midnight (d + 1)) by (unfold midnight; lia).
    rewrite IH.
    replace (Z.to_nat (e - d + 1)) with (S (Z.to_nat (e - (d + 1) + 1))) by lia.
    cbn [Nat.min seq map]. f_equal; [f_equal; lia|].
    rewrite <- seq_shift, map_map. apply map_ext. intros i. f_equal. lia.
  - replace (Z.to_nat (e - d + 1)) with 0%nat by lia.
    now rewrite Nat.min_0_r.
Qed.

Lemma visited_one_offset (startDate endDate : Z) :
  visited LocalTZA startDate endDate
  = map (fun i => midnight (startDate + Z.of_nat i))
        (seq 0 (Z.to_nat (endDate - startDate + 1))).
Proof.
  unfold visited. rewrite visits_one_offset. f_equal. f_equal.
  unfold date_fuel, midnight. lia.
Qed.

Lemma visited_one_offset_In (startDate endDate t : Z) :
  In t (visited LocalTZA startDate endDate) <->
  exists d, startDate <= d <= endDate /\ t = midnight d.
Proof.
  rewrite visited_one_offset, in_map_iff. split.
  - intros (i & <- & Hi). apply in_seq in Hi. eexists. split; [|reflexivity].
    lia.
  - intros (d & Hd & ->). exists (Z.to_nat (d - startDate)). split.
    + f_equal. lia.
    + apply in_seq. lia.
Qed.

Lemma visited_one_offset_NoDup (startDate endDate : Z) :
  NoDup (visited LocalTZA startDate endDate).
Proof.
  rewrite visited_one_offset.
  generalize (Z.to_nat (endDate - startDate + 1)) as n. intros n.
  generalize 0%nat as i. induction n as [|n IH]; intros i; cbn [seq map];
    constructor; [|apply IH].
  rewrite in_map_iff. intros (j & E & Hj). apply in_seq in Hj.
  unfold midnight in E. lia.
Qed.

End OneOffset.

End Visits.

(** *** Order of the generated slots *)

Lemma ForallOrdPairs_app {A} (R : A -> A -> Prop) (l1 l2 : list A) :
  ForallOrdPairs R l1 -> ForallOrdPairs R l2 ->
  (forall a b, In a l1 -> In b l2 -> R a b) ->
  ForallOrdPairs R (l1 ++ l2).
Proof.
  induction 1 as [|a l1 Ha Hl1 IH]; intros H2 Hx; cbn [app]; [exact H2|].
  constructor.
  - apply Forall_app. split; [exact Ha|].
    apply Forall_forall. intros b Hb. apply Hx; [now left|exact Hb].
  - apply IH; [exact H2|]. intros x y Hx1 Hy. apply Hx; [now right|exact Hy].
Qed.

Lemma ForallOrdPairs_impl {A} (R S : A -> A -> Prop) (l : list A) :
  (forall a b, R a b -> S a b) -> ForallOrdPairs R l -> ForallOrdPairs S l.
Proof.
  intros HRS. induction 1 as [|a l Ha Hl IH]; constructor; [|exact IH].
  eapply Forall_impl; [|exact Ha]. intros b. apply HRS.
Qed.

Lemma before_not_overlap (a b : NewSlot) : before a b -> ~ overlap a b.
Proof.
  intros Hab (s1 & e1 & s2 & e2 & Ea & Eb & _ & Hlt).
  specialize (Hab _ _ _ _ Ea Eb). lia.
Qed.

Section Chain.

Variable LocalTZA : TimeZone.
Variable courtName : string.
Variable offset_minutes : Z.

Lemma hour_loop_chain (fuel : nat) (d p half : Z) :
  ForallOrdPairs before (hour_loop courtName offset_minutes fuel d p half).
Proof.
  revert half. induction fuel as [|fuel IH]; intros half; cbn [hour_loop];
    [constructor|].
  destruct (half <? 46); [|constructor].
  destruct (Z.geb_spec ((half * 30 + offset_minutes) / 60) 23) as [H23|H23];
    constructor; [|apply IH].
  apply Forall_forall. intros b Hb.
  apply hour_loop_In in Hb. destruct Hb as (j & _ & _ & Hj & ->).
  intros s1 e1 s2 e2 Ea Eb.
  apply interval_slot_at_inv in Ea; [|exact H23].
  apply interval_slot_at_inv in Eb; [|exact Hj]. lia.
Qed.

(** Every slot of a pass lies between the first tick of its date and
    ninety minutes after the last. *)
Lemma slots_of_day_bounds (t : Z) (a : NewSlot) (s e : Z) :
  In a (slots_of_day LocalTZA courtName offset_minutes t) ->
  interval a = Some (s, e) ->
  Day t * 1440 + 420 + offset_minutes <= s /\
  e <= Day t * 1440 + 1410 + offset_minutes.
Proof.
  intros Hin E. apply slots_of_day_In in Hin.
  destruct Hin as (k & Hk & Hlt & ->).
  apply interval_slot_at_inv in E; [lia|].
  div_lia.
Qed.

(** When the instants visited are midnights of dates that grow, the
    passes follow each other on the time line. *)
Lemma flat_map_chain (ts : list Z) :
  StronglySorted (fun t t' => Day t < Day t') ts ->
  ForallOrdPairs before
    (flat_map (slots_of_day LocalTZA courtName offset_minutes) ts).
Proof.
  induction 1 as [|t ts Hts IH Ht]; cbn [flat_map]; [constructor|].
  apply ForallOrdPairs_app; [apply hour_loop_chain|exact IH|].
  intros a b Ha Hb s1 e1 s2 e2 Ea Eb.
  apply in_flat_map in Hb. destruct Hb as (t' & Ht' & Hb).
  rewrite Forall_forall in Ht. specialize (Ht t' Ht').
  pose proof (slots_of_day_bounds _ _ _ _ Ha Ea).
  pose proof (slots_of_day_bounds _ _ _ _ Hb Eb). lia.
Qed.

Lemma visited_one_offset_sorted (offset startDate endDate : Z) :
  (forall t b, LocalTZA t b = offset) ->
  StronglySorted (fun t t' => Day t < Day t')
                 (visited LocalTZA startDate endDate).
Proof.
  intros H. rewrite (visited_one_offset LocalTZA offset H).
  generalize (Z.to_nat (endDate - startDate + 1)) as n. intros n.
  generalize 0%nat as i. induction n as [|n IH]; intros i; cbn [seq map];
    constructor; [apply IH|].
  apply Forall_forall. intros t Ht. apply in_map_iff in Ht.
  destruct Ht as (j & <- & Hj). apply in_seq in Hj.
  rewrite !Day_midnight. lia.
Qed.

Lemma generateSlotsForCourt_chain (offset startDate endDate : Z) :
  (forall t b, LocalTZA t b = offset) ->
  ForallOrdPairs before
    (generateSlotsForCourt LocalTZA courtName offset_minutes startDate endDate).
Proof.
  intros H. rewrite generateSlotsForCourt_visited.
  apply flat_map_chain. now apply (visited_one_offset_sorted offset).
Qed.

End Chain.

(** When [setDate] moves the instant forward the date loop ends by its
    own guard: any fuel from [date_fuel] on gives the same slots. *)
Lemma date_loop_fuel (LocalTZA : TimeZone) (courtName : string)
    (offset_minutes startDate endDate : Z) (fuel : nat) :
  (forall t, t < next_day LocalTZA t) ->
  (date_fuel startDate endDate <= fuel)%nat ->
  date_loop LocalTZA courtName offset_minutes fuel
            (midnight startDate) (midnight endDate)
  = generateSlotsForCourt LocalTZA courtName offset_minutes startDate endDate.
Proof.
  intros Hadv Hfuel. unfold generateSlotsForCourt.
  rewrite !date_loop_visits. f_equal.
  apply visits_fuel; [exact Hadv| |]; unfold date_fuel in *; lia.
Qed.

(** In a zone of one offset the slots of a court are the ticks of every
    date of the range, priced by the weekday the local clock shows at the
    UTC midnight of the date. *)
Lemma generateSlotsForCourt_one_offset_In (LocalTZA : TimeZone)
    (courtName : string) (offset_minutes offset startDate endDate : Z)
    (s : NewSlot) :
  (forall t b, LocalTZA t b = offset) ->
  In s (generateSlotsForCourt LocalTZA courtName offset_minutes
          startDate endDate) <->
  exists d k,
    startDate <= d <= endDate /\ 0 <= k <= 10 /\
    420 + offset_minutes + 90 * k < 1380 /\
    s = slot_at courtName offset_minutes d
          (if ((d + offset / 1440 + 4) mod 7 =? 0)
              || ((d + offset / 1440 + 4) mod 7 =? 6) then 65 else 40)
          (14 + 3 * k).
Proof.
  intros Hone. rewrite generateSlotsForCourt_In. split.
  - intros (t & Ht & Hin).
    apply (visited_one_offset_In LocalTZA offset Hone) in Ht.
    destruct Ht as (d & Hd & ->). apply slots_of_day_In in Hin.
    destruct Hin as (k & Hk & Hlt & ->). exists d, k.
    rewrite Day_midnight, (getDay_one_offset LocalTZA offset Hone). auto.
  - intros (d & k & Hd & Hk & Hlt & ->). exists (midnight d). split.
    + apply (visited_one_offset_In LocalTZA offset Hone). eauto.
    + apply slots_of_day_In. exists k.
      rewrite Day_midnight, (getDay_one_offset LocalTZA offset Hone). auto.
Qed.

(** *** The claims on generation *)

(** C4, as the code has it.  The slots generated for a court are one pass
    of ticks for every instant the date loop visits.  A pass at an instant
    gives, under the UTC date of the instant, the ticks of ninety minutes
    counted from [7 * 60 + offset_minutes] that start before 23:00, and a
    tick that starts at a time of the day occupies the ninety minutes from
    its start.  In any pass a court with offset 0 gets the eleven slots
    from 07:00-08:30 to 22:00-23:30: the last tick before 23:00 is kept
    although it ends after the window.  A court with offset 30 gets
    07:30-09:00 first and 22:30-24:00 last.  The first instant visited is
    the UTC midnight of the start date; when [setDate] moves the instant
    forward, the loop ends by its guard.  In a zone that keeps one offset
    the instants visited are the UTC midnights of the dates of the range,
    each once and in order, so the slots are the ticks of every date of
    the range. *)
Theorem c4_ticks_of_the_window (LocalTZA : TimeZone) (courtName : string)
    (offset_minutes startDate endDate : Z) :
  generateSlotsForCourt LocalTZA courtName offset_minutes startDate endDate
  = flat_map (slots_of_day LocalTZA courtName offset_minutes)
             (visited LocalTZA startDate endDate) /\
  (forall t s,
      In s (slots_of_day LocalTZA courtName offset_minutes t) <->
      exists k,
        0 <= k <= 10 /\ 420 + offset_minutes + 90 * k < 1380 /\
        s = slot_at courtName offset_minutes (Day t)
              (if (getDay LocalTZA t =? 0) || (getDay LocalTZA t =? 6)
               then 65 else 40)
              (14 + 3 * k)) /\
  (forall d p k,
      0 <= 420 + offset_minutes + 90 * k < 1380 ->
      interval (slot_at courtName offset_minutes d p (14 + 3 * k))
      = Some (d * 1440 + (420 + offset_minutes + 90 * k),
              d * 1440 + (420 + offset_minutes + 90 * k) + 90)) /\
  (forall t,
      map (fun s => (n_start_time s, n_end_time s))
          (slots_of_day LocalTZA courtName 0 t)
      = [("07:00:00", "08:30:00"); ("08:30:00", "10:00:00");
         ("10:00:00", "11:30:00"); ("11:30:00", "13:00:00");
         ("13:00:00", "14:30:00"); ("14:30:00", "16:00:00");
         ("16:00:00", "17:30:00"); ("17:30:00", "19:00:00");
         ("19:00:00", "20:30:00"); ("20:30:00", "22:00:00");
         ("22:00:00", "23:30:00")]) /\
  (forall t,
      map (fun s => (n_start_time s, n_end_time s))
          (slots_of_day LocalTZA courtName 30 t)
      = [("07:30:00", "09:00:00"); ("09:00:00", "10:30:00");
         ("10:30:00", "12:00:00"); ("12:00:00", "13:30:00");
         ("13:30:00", "15:00:00"); ("15:00:00", "16:30:00");
         ("16:30:00", "18:00:00"); ("18:00:00", "19:30:00");
         ("19:30:00", "21:00:00"); ("21:00:00", "22:30:00");
         ("22:30:00", "24:00:00")]) /\
  (startDate <= endDate ->
   exists rest,
     visited LocalTZA startDate endDate = midnight startDate :: rest) /\
  ((forall t, t < next_day LocalTZA t) ->
   forall fuel, (date_fuel startDate endDate <= fuel)%nat ->
     date_loop LocalTZA courtName offset_minutes fuel
               (midnight startDate) (midnight endDate)
     = generateSlotsForCourt LocalTZA courtName offset_minutes
         startDate endDate) /\
  (forall offset,
      (forall t b, LocalTZA t b = offset) ->
      visited LocalTZA startDate endDate
      = map (fun i => midnight (startDate + Z.of_nat i))
            (seq 0 (Z.to_nat (endDate - startDate + 1))) /\
      (forall s,
          In s (generateSlotsForCourt LocalTZA courtName offset_minutes
                  startDate endDate) <->
          exists d k,
            startDate <= d <= endDate /\ 0 <= k <= 10 /\
            420 + offset_minutes + 90 * k < 1380 /\
            s = slot_at courtName offset_minutes d
                  (if ((d + offset / 1440 + 4) mod 7 =? 0)
                      || ((d + offset / 1440 + 4) mod 7 =? 6)
                   then 65 else 40)
                  (14 + 3 * k))).
Proof.
  split; [apply generateSlotsForCourt_visited|].
  split; [intros t s; apply slots_of_day_In|].
  split.
  { intros d p k Hk.
    replace (420 + offset_minutes + 90 * k)
      with ((14 + 3 * k) * 30 + offset_minutes) by lia.
    apply interval_slot_at; [lia|]. div_lia. }
  split; [intros t; reflexivity|].
  split; [intros t; reflexivity|].
  split; [apply visited_first|].
  split; [intros Hadv fuel Hfuel; now apply date_loop_fuel|].
  intros offset Hone. split.
  - now apply (visited_one_offset LocalTZA offset).
  - intros s. now apply generateSlotsForCourt_one_offset_In.
Qed.

(** C5, as the code has it.  The price of a generated slot depends on a
    day of the week only, whatever its time of day: 65 (6500 cents) on a
    Saturday or a Sunday, 40 (4000 cents) on the other days; no rate table
    is read.  The day of the week is the one the local clock shows at the
    instant of the pass, while the date of the slot is the UTC date of
    that instant.  In a zone that keeps one offset it is the weekday of
    the slot's date moved by the whole days of the offset: the weekday of
    the date itself from UTC eastwards, of the day before west of UTC. *)
Theorem c5_price_by_day_of_week (LocalTZA : TimeZone) (courtName : string)
    (offset_minutes startDate endDate : Z) (s : NewSlot) :
  In s (generateSlotsForCourt LocalTZA courtName offset_minutes
          startDate endDate) ->
  (exists t,
      In t (visited LocalTZA startDate endDate) /\
      n_slot_date s = Day t /\
      n_base_price_cents s
      = (if (getDay LocalTZA t =? 0) || (getDay LocalTZA t =? 6)
         then 6500 else 4000)) /\
  (n_base_price_cents s = 4000 \/ n_base_price_cents s = 6500) /\
  (forall offset,
      (forall t b, LocalTZA t b = offset) ->
      n_base_price_cents s
      = (if ((n_slot_date s + offset / 1440 + 4) mod 7 =? 0)
            || ((n_slot_date s + offset / 1440 + 4) mod 7 =? 6)
         then 6500 else 4000) /\
      (1 <= (n_slot_date s + offset / 1440 + 4) mod 7 <= 5 ->
       n_base_price_cents s = 4000)).
Proof.
  intros Hin. split; [|split].
  - apply generateSlotsForCourt_In in Hin. destruct Hin as (t & Ht & Hin).
    apply slots_of_day_In in Hin. destruct Hin as (k & _ & _ & ->).
    exists t. cbn [slot_at n_base_price_cents n_slot_date].
    split; [exact Ht|]. split; [reflexivity|].
    destruct ((getDay LocalTZA t =? 0) || (getDay LocalTZA t =? 6));
      reflexivity.
  - apply generateSlotsForCourt_In in Hin. destruct Hin as (t & _ & Hin).
    apply slots_of_day_In in Hin. destruct Hin as (k & _ & _ & ->).
    cbn [slot_at n_base_price_cents].
    destruct ((getDay LocalTZA t =? 0) || (getDay LocalTZA t =? 6));
      [right|left]; reflexivity.
  - intros offset Hone.
    apply (generateSlotsForCourt_one_offset_In _ _ _ offset _ _ _ Hone) in Hin.
    destruct Hin as (d & k & _ & _ & _ & ->).
    cbn [slot_at n_base_price_cents n_slot_date].
    set (w := (d + offset / 1440 + 4) mod 7). split.
    + destruct ((w =? 0) || (w =? 6)); reflexivity.
    + intros Hwd.
      destruct (Z.eqb_spec w 0); [lia|].
      destruct (Z.eqb_spec w 6); [lia|]. reflexivity.
Qed.

(** C9 fails in the code when the local clock changes within the range.
    In the zone of Tallinn, for a court with offset 0 and the range from
    2024-03-30 (day 19812) to 2024-04-01 (day 19814), the date loop visits
    the UTC midnights of 03-30 and 03-31 and then 23:00 UTC of 03-31,
    which is past the end of the range on the day after.  The slots of
    2024-03-31 are emitted twice, at the Sunday price and again at the
    Monday price: two slots of the court with the same interval, which
    overlap.  No slot is dated 2024-04-01. *)
Theorem c9_slots_overlap_over_a_clock_change :
  let slots := generateSlotsForCourt Tallinn_2024 "Court A" 0 19812 19814 in
  let sunday := mkNewSlot "Court A" 19813 "07:00:00" "08:30:00" 6500 in
  let again := mkNewSlot "Court A" 19813 "07:00:00" "08:30:00" 4000 in
  visited Tallinn_2024 19812 19814
  = [midnight 19812; midnight 19813; midnight 19813 + 23 * 60] /\
  (forall t, t < next_day Tallinn_2024 t) /\
  nth_error slots 11 = Some sunday /\
  nth_error slots 22 = Some again /\
  List.length slots = 33%nat /\
  overlap sunday again /\
  ~ ForallOrdPairs
      (fun a b => n_court_name a = n_court_name b -> ~ overlap a b)
      (all_slots Tallinn_2024 [("Court A", 0)] 19812 19814) /\
  (forall s, In s slots -> n_slot_date s <> 19814).
Proof.
  intros slots sunday again.
  assert (Hov : overlap sunday again).
  { exists (19813 * 1440 + 420), (19813 * 1440 + 510),
           (19813 * 1440 + 420), (19813 * 1440 + 510).
    split; [reflexivity|]. split; [reflexivity|]. lia. }
  assert (H11 : nth_error slots 11 = Some sunday) by (vm_compute; reflexivity).
  assert (H22 : nth_error slots 22 = Some again) by (vm_compute; reflexivity).
  split; [vm_compute; reflexivity|].
  split.
  { intros t. unfold next_day, UTC, LocalTime, Tallinn_2024.
    repeat match goal with
           | |- context [if ?a <? ?b then _ else _] =>
               destruct (Z.ltb_spec a b)
           end; lia. }
  split; [exact H11|]. split; [exact H22|].
  split; [vm_compute; reflexivity|].
  split; [exact Hov|]. split.
  - intros Hall.
    assert (Hall' : ForallOrdPairs
              (fun a b => n_court_name a = n_court_name b -> ~ overlap a b)
              slots).
    { unfold all_slots in Hall. cbn [flat_map fst snd] in Hall.
      now rewrite app_nil_r in Hall. }
    destruct (ForallOrdPairs_In Hall' sunday again) as [E|[H|H]].
    + eapply nth_error_In, H11.
    + eapply nth_error_In, H22.
    + discriminate E.
    + now apply H.
    + apply H; [reflexivity|].
      destruct Hov as (s1 & e1 & s2 & e2 & Ha & Hb & Hlt1 & Hlt2).
      exists s2, e2, s1, e1. auto.
  - intros s Hs. vm_compute in Hs.
    repeat (destruct Hs as [<-|Hs]; [discriminate|]). contradiction.
Qed.

(** C4, as the spec words its example: no slot of the court with offset 0
    starts after 21:30.  The slot 22:00-23:30 does. *)
Lemma c4_counterexample :
  ~ (forall s m,
        In s (generateSlotsForCourt UTC_zone "Court A" 0 19725 19725) ->
        minutes_of_time (n_start_time s) = Some m -> m <= 21 * 60 + 30).
Proof.
  intros H.
  specialize (H (mkNewSlot "Court A" 19725 "22:00:00" "23:30:00" 4000) 1320).
  assert (1320 <= 21 * 60 + 30); [|lia].
  apply H; [|reflexivity].
  vm_compute. do 10 right. left. reflexivity.
Qed.

Lemma c4_witness :
  (0 <= 420 + 30 + 90 * 10 < 1380 /\
   interval (slot_at "Court B" 30 19725 40 (14 + 3 * 10))
   = Some (19725 * 1440 + (420 + 30 + 90 * 10),
           19725 * 1440 + (420 + 30 + 90 * 10) + 90)) /\
  ((forall t b, UTC_zone t b = 0) /\
   visited UTC_zone 19725 19726 = [midnight 19725; midnight 19726]).
Proof.
  pose proof (c4_ticks_of_the_window UTC_zone "Court B" 30 19725 19726)
    as (_ & _ & Htick & _ & _ & _ & _ & Hone).
  split.
  - split; [lia|]. apply Htick. lia.
  - split; [reflexivity|].
    exact (proj1 (Hone 0 (fun t b => eq_refl))).
Defined.

(** C5, as the spec words it: on a Wednesday the slot 17:00-18:30 costs 85.
    Day 19725 is Wednesday 2024-01-03; with the clock on UTC the court with
    offset 60 has that slot, at 4000 cents. *)
Lemma c5_counterexample :
  getDay UTC_zone (midnight 19725) = 3 /\
  ~ (forall s,
        In s (generateSlotsForCourt UTC_zone "Court C" 60 19725 19725) ->
        n_start_time s = "17:00:00" -> n_end_time s = "18:30:00" ->
        n_base_price_cents s = 85 * 100 \/ n_base_price_cents s = 85).
Proof.
  split; [reflexivity|]. intros H.
  specialize (H (mkNewSlot "Court C" 19725 "17:00:00" "18:30:00" 4000)).
  cbn [n_start_time n_end_time n_base_price_cents] in H.
  assert (4000 = 85 * 100 \/ 4000 = 85) as [|]; [|lia|lia].
  apply H; [|reflexivity|reflexivity].
  vm_compute. do 6 right. left. reflexivity.
Qed.

Lemma c5_witness :
  In (mkNewSlot "Court C" 19725 "17:00:00" "18:30:00" 4000)
     (generateSlotsForCourt UTC_zone "Court C" 60 19725 19725) /\
  (forall t b, UTC_zone t b = 0) /\
  n_base_price_cents (mkNewSlot "Court C" 19725 "17:00:00" "18:30:00" 4000)
  = 4000.
Proof.
  assert (Hin : In (mkNewSlot "Court C" 19725 "17:00:00" "18:30:00" 4000)
                   (generateSlotsForCourt UTC_zone "Court C" 60 19725 19725)).
  { vm_compute. do 6 right. left. reflexivity. }
  split; [exact Hin|]. split; [reflexivity|].
  pose proof (c5_price_by_day_of_week UTC_zone "Court C" 60 19725 19725 _ Hin)
    as (_ & _ & Hone).
  apply (proj2 (Hone 0 (fun t b => eq_refl))).
  vm_compute. split; discriminate.
Defined.

End SlotGenFacts.

(** ** Regeneration over stored slots *)

Section UpsertFacts.

Import SlotGen.

Lemma same_key_eq (r : Slot) (n : NewSlot) :
  same_key r n = true ->
  court_name r = n_court_name n /\ slot_date r = n_slot_date n /\
  start_time r = n_start_time n.
Proof.
  unfold same_key. rewrite !andb_true_iff.
  intros [[Hc Hd] Ht]. apply String.eqb_eq in Hc, Ht. apply Z.eqb_eq in Hd.
  auto.
Qed.

Lemma same_key_iff_key (r : Slot) (n : NewSlot) :
  same_key r n = true <-> key r = (n_court_name n, n_slot_date n, n_start_time n).
Proof.
  unfold key. split.
  - intros H. apply same_key_eq in H. destruct H as (-> & -> & ->). reflexivity.
  - unfold same_key. intros [= -> -> ->].
    now rewrite !String.eqb_refl, Z.eqb_refl.
Qed.

(** What a row's key decides: rows with one key get the same answer. *)
Lemma same_key_by_key (r r' : Slot) (n : NewSlot) :
  key r = key r' -> same_key r n = same_key r' n.
Proof.
  unfold key, same_key. intros [= Hc Hd Ht]. now rewrite Hc, Hd, Ht.
Qed.

Lemma kept_refresh (n : NewSlot) (r : Slot) : kept (refresh n r) = kept r.
Proof.
  unfold refresh. destruct (same_key r n) eqn:E; [|reflexivity].
  apply same_key_eq in E. destruct E as (Hc & Hd & Ht).
  destruct r; cbn in *. unfold kept, key; cbn. congruence.
Qed.

Lemma kept_key (r r' : Slot) : kept r = kept r' -> key r = key r'.
Proof. unfold kept, key. intros H. injection H as _ Hc Hd Ht _ _. congruence. Qed.

Lemma map_kept_refresh (n : NewSlot) (t : list Slot) :
  map kept (map (refresh n) t) = map kept t.
Proof. rewrite map_map. apply map_ext. intros r. apply kept_refresh. Qed.






(** *** Running the same payload again *)

(** What the whole payload does to one stored row. *)
Local Abbreviation refresh_all rows :=
  (fun r : Slot => fold_left (fun r n => refresh n r) rows r).

Lemma kept_refresh_all (rows : list NewSlot) (r : Slot) :
  kept (refresh_all rows r) = kept r.
Proof.
  revert r. induction rows as [|n rows IH]; intros r; cbn [fold_left];
    [reflexivity|].
  now rewrite IH, kept_refresh.
Qed.

Lemma existsb_same_key_kept (t t' : list Slot) (n : NewSlot) :
  map kept t = map kept t' ->
  existsb (fun r => same_key r n) t = existsb (fun r => same_key r n) t'.
Proof.
  revert t'. induction t as [|r t IH]; intros [|r' t'] H; try discriminate;
    [reflexivity|].
  cbn [map] in H.
  assert (Hr : kept r = kept r') by congruence.
  assert (Ht : map kept t = map kept t') by congruence.
  cbn [existsb].
  rewrite (same_key_by_key r r' n (kept_key _ _ Hr)). f_equal. now apply IH.
Qed.

(** A key that is stored stays stored. *)
Lemma upsert_row_present (t : list Slot) (n n' : NewSlot) :
  existsb (fun r => same_key r n') t = true ->
  existsb (fun r => same_key r n') (upsert_row t n) = true.
Proof.
  intros H. unfold upsert_row. destruct (existsb (fun r => same_key r n) t).
  - rewrite <- H. apply existsb_same_key_kept, map_kept_refresh.
  - rewrite existsb_app, H. reflexivity.
Qed.

Lemma upsert_row_stores (t : list Slot) (n : NewSlot) :
  existsb (fun r => same_key r n) (upsert_row t n) = true.
Proof.
  unfold upsert_row. destruct (existsb (fun r => same_key r n) t) eqn:E.
  - rewrite <- E. apply existsb_same_key_kept, map_kept_refresh.
  - rewrite existsb_app. cbn [existsb]. unfold same_key, inserted. cbn.
    now rewrite !String.eqb_refl, Z.eqb_refl, orb_true_r.
Qed.

Lemma upsert_present (rows : list NewSlot) (t : list Slot) (n' : NewSlot) :
  existsb (fun r => same_key r n') t = true ->
  existsb (fun r => same_key r n') (upsert t rows) = true.
Proof.
  unfold upsert. revert t. induction rows as [|n rows IH]; intros t H;
    cbn [fold_left]; [exact H|].
  apply IH, upsert_row_present, H.
Qed.

Lemma upsert_stores (rows : list NewSlot) (t : list Slot) :
  Forall (fun n => existsb (fun r => same_key r n) (upsert t rows) = true) rows.
Proof.
  revert t. induction rows as [|n rows IH]; intros t; constructor.
  - unfold upsert. cbn [fold_left]. apply (upsert_present rows).
    apply upsert_row_stores.
  - apply IH.
Qed.


(** Rewriting a row of the payload's key gives a row that only depends on
    what is kept of it. *)
Lemma refresh_determined (n : NewSlot) (r r' : Slot) :
  kept r' = kept r -> same_key r n = true -> refresh n r' = refresh n r.
Proof.
  intros Hk Hs. unfold refresh.
  rewrite (same_key_by_key r' r n (kept_key _ _ Hk)), Hs.
  unfold kept in Hk. injection Hk as Hid _ Hav Hcur. congruence.
Qed.

Lemma refresh_all_snoc (rows : list NewSlot) (n : NewSlot) (r : Slot) :
  refresh_all (rows ++ [n]) r = refresh n (refresh_all rows r).
Proof. now rewrite fold_left_app. Qed.

Lemma upsert_snoc (rows : list NewSlot) (n : NewSlot) (t : list Slot) :
  upsert t (rows ++ [n]) = upsert_row (upsert t rows) n.
Proof. unfold upsert. now rewrite fold_left_app. Qed.

(** After the upsert every row is as the payload wants it. *)
Lemma upsert_settled (rows : list NewSlot) (t : list Slot) (x : Slot) :
  In x (upsert t rows) -> refresh_all rows x = x.
Proof.
  revert x. induction rows as [|n rows IH] using rev_ind; intros x Hx;
    [reflexivity|].
  rewrite refresh_all_snoc. rewrite upsert_snoc in Hx.
  set (D := upsert t rows) in *. unfold upsert_row in Hx.
  destruct (existsb (fun r => same_key r n) D) eqn:E.
  - apply in_map_iff in Hx. destruct Hx as (y & <- & Hy).
    destruct (same_key y n) eqn:Hs.
    + apply refresh_determined; [|exact Hs].
      now rewrite kept_refresh_all, kept_refresh.
    + assert (Hy' : refresh n y = y) by (unfold refresh; now rewrite Hs).
      rewrite Hy'. cbn beta. rewrite (IH _ Hy). exact Hy'.
  - apply in_app_iff in Hx. destruct Hx as [Hx|[<-|[]]].
    + rewrite (IH _ Hx). unfold refresh.
      destruct (same_key x n) eqn:Hs; [|reflexivity].
      assert (existsb (fun r => same_key r n) D = true)
        by (apply existsb_exists; eauto).
      congruence.
    + set (x := inserted D n).
      assert (Hs : same_key x n = true).
      { unfold same_key, x, inserted. cbn.
        now rewrite !String.eqb_refl, Z.eqb_refl. }
      rewrite (refresh_determined n x); [|apply kept_refresh_all|exact Hs].
      unfold refresh. rewrite Hs. reflexivity.
Qed.


(** *** Running it again after bookings were made *)



Local Abbreviation write v i :=
  (fun s : Slot =>
     if id s =? i then
       mkSlot (id s) (court_name s) (slot_date s) (start_time s)
              (end_time s) (base_price_cents s) (current_price_cents s) v
     else s).






(** *** What a regeneration does to a stored row *)









End UpsertFacts.

(** ** Reservation *)

Section CreateBookingFacts.

Import CreateBooking.

(** *** One invocation, run alone *)

(** The invocation always runs to a response, and what it does is decided
    by the outcomes of its calls in the order it makes them. *)
Lemma create_booking_unfold (h : Handler) (req : Request) (o : Outcomes)
    (db : DB) :
  create_booking h req o db =
  let c1 := (db, SelectSlot (slotId req)) in
  match (if select_error o then None
         else single (select_available db (slotId req))) with
  | None => (db, Some SlotNotAvailable, [c1])
  | Some slot =>
      let c2 := (db, CreatePayment (base_price_cents slot) (slotId req)) in
      match gateway o with
      | None => (db, Some ServerError, [c1; c2])
      | Some session =>
          let booking := new_booking db req slot session in
          let c3 := (db, InsertBooking booking) in
          if insert_error o || reference_taken db (session_id session)
          then (db, Some ServerError, [c1; c2; c3])
          else
            let db1 := mkDB (available_slots db) (bookings db ++ [booking]) in
            let c4 := (db1, MarkUnavailable (slotId req)) in
            (if update_error o then db1
             else mkDB (set_available false (slotId req) (available_slots db))
                       (bookings db ++ [booking]),
             Some (success_body h booking session), [c1; c2; c3; c4])
      end
  end.
Proof.
  unfold create_booking, call_fuel. cbn [run_from next_call step].
  destruct (if select_error o then None
            else single (select_available db (slotId req))) as [slot|];
    [|reflexivity].
  cbn [run_from next_call step].
  destruct (gateway o) as [session|]; [|reflexivity].
  cbn [run_from next_call step].
  destruct (insert_error o || reference_taken db (session_id session));
    [reflexivity|].
  cbn [run_from next_call step available_slots bookings].
  destruct (update_error o); reflexivity.
Qed.

Lemma create_booking_responds (h : Handler) (req : Request) (o : Outcomes)
    (db : DB) :
  exists r, response (create_booking h req o db) = Some r.
Proof.
  rewrite create_booking_unfold. cbv zeta.
  destruct (if select_error o then None else _) as [slot|]; [|now eexists].
  destruct (gateway o) as [session|]; [|now eexists].
  destruct (_ || _); now eexists.
Qed.

Lemma success_body_is_success (h : Handler) (b : Booking) (s : Session) :
  exists secret sid, success_body h b s = Success (booking_id b) secret sid.
Proof. destruct h; cbn; eauto. Qed.

(** The row the select returns is a stored row of that identifier, marked
    available. *)
Lemma single_select_available (db : DB) (i : Id) (slot : Slot) :
  single (select_available db i) = Some slot ->
  In slot (available_slots db) /\ id slot = i /\ is_available slot = true /\
  marked_available db i = true.
Proof.
  unfold single, select_available, marked_available. intros H.
  destruct (filter _ (available_slots db)) as [|r [|r' rs]] eqn:E;
    try discriminate.
  injection H as ->.
  assert (Hin : In slot (filter (fun s => (id s =? i) && is_available s)
                                (available_slots db)))
    by (rewrite E; now left).
  apply filter_In in Hin. destruct Hin as [Hin Hp].
  pose proof Hp as Hp'. apply andb_true_iff in Hp'. destruct Hp' as [Hid Hav].
  apply Z.eqb_eq in Hid. repeat split; try assumption.
  apply existsb_exists. eauto.
Qed.

(** Once the slot is marked, no row of that identifier is selected. *)
Lemma select_after_set_unavailable (t : list Slot) (bs : list Booking) (i : Id) :
  select_available (mkDB (set_available false i t) bs) i = [].
Proof.
  unfold select_available, set_available. cbn [available_slots].
  induction t as [|s t IH]; [reflexivity|]. cbn [map filter].
  destruct (Z.eqb_spec (id s) i) as [He|Hne].
  - cbn [id is_available]. rewrite He, Z.eqb_refl, andb_false_r. exact IH.
  - destruct (Z.eqb_spec (id s) i); [contradiction|]. exact IH.
Qed.

Lemma marked_after_set_unavailable (t : list Slot) (bs : list Booking) (i : Id) :
  marked_available (mkDB (set_available false i t) bs) i = false.
Proof.
  unfold marked_available, set_available. cbn [available_slots].
  induction t as [|s t IH]; [reflexivity|]. cbn [map existsb].
  destruct (Z.eqb_spec (id s) i) as [He|Hne].
  - cbn [id is_available]. rewrite He, Z.eqb_refl, andb_false_r. exact IH.
  - destruct (Z.eqb_spec (id s) i); [contradiction|]. exact IH.
Qed.

(** *** The claims on reservation *)

(** Closes the cases of [c2_effects_of_one_reservation] in which the
    invocation stops before its first write. *)
Ltac turned_away :=
  cbn [response final_db fst snd]; repeat split; auto; discriminate.

(** C2, as the code has it.  An invocation that answers "Slot not
    available" or with a server error (the lookup found no single
    available row, the gateway call threw, the insert was refused) leaves
    the store as it was.  An invocation that answers with success has
    appended the pending booking; the slot is flipped when the last update
    took effect and stays as it was when that update failed, for its
    result is not looked at. *)
Theorem c2_effects_of_one_reservation (h : Handler) (req : Request)
    (o : Outcomes) (db : DB) :
  let x := create_booking h req o db in
  (response x = Some SlotNotAvailable \/ response x = Some ServerError ->
   final_db x = db) /\
  (gateway o = None \/ insert_error o = true ->
   final_db x = db /\
   (response x = Some SlotNotAvailable \/ response x = Some ServerError)) /\
  (forall bookingId secret sid,
      response x = Some (Success bookingId secret sid) ->
      exists slot session,
        single (select_available db (slotId req)) = Some slot /\
        gateway o = Some session /\
        bookings (final_db x)
        = bookings db ++ [new_booking db req slot session] /\
        status (new_booking db req slot session) = pending /\
        slot_id (new_booking db req slot session) = slotId req /\
        available_slots (final_db x)
        = (if update_error o then available_slots db
           else set_available false (slotId req) (available_slots db)) /\
        (update_error o = false ->
         marked_available (final_db x) (slotId req) = false)).
Proof.
  cbv zeta. rewrite create_booking_unfold. cbv zeta.
  destruct (select_error o) eqn:Es.
  { turned_away. }
  destruct (single (select_available db (slotId req))) as [slot|] eqn:Esel.
  2:{ turned_away. }
  destruct (gateway o) as [session|] eqn:Eg.
  2:{ turned_away. }
  destruct (insert_error o) eqn:Ei; cbn [orb].
  { turned_away. }
  destruct (reference_taken db (session_id session)) eqn:Er.
  { turned_away. }
  destruct (success_body_is_success h (new_booking db req slot session) session)
    as (secret & sid & Hb).
  cbn [response final_db fst snd]. rewrite Hb.
  split; [intros [|]; discriminate|].
  split; [intros [|]; discriminate|].
  intros bookingId secret' sid' _. exists slot, session.
  repeat split.
  - destruct (update_error o); reflexivity.
  - destruct (update_error o); reflexivity.
  - intros ->. apply marked_after_set_unavailable.
Qed.

(** C3, as the code has it.  The gateway call is issued right after the
    lookup, against the store the invocation started from, in which the slot
    is still marked available; the update that marks it unavailable is
    issued last, only after the gateway call has returned and the booking
    has been inserted. *)
Theorem c3_payment_request_precedes_the_mark (h : Handler) (req : Request)
    (o : Outcomes) (db : DB) :
  let x := create_booking h req o db in
  (forall d amount i,
      In (d, CreatePayment amount i) (calls x) ->
      d = db /\ i = slotId req /\ marked_available d i = true) /\
  (forall d i,
      In (d, MarkUnavailable i) (calls x) ->
      exists slot session,
        gateway o = Some session /\
        d = mkDB (available_slots db)
                 (bookings db ++ [new_booking db req slot session]) /\
        calls x = [(db, SelectSlot (slotId req));
                   (db, CreatePayment (base_price_cents slot) (slotId req));
                   (db, InsertBooking (new_booking db req slot session));
                   (d, MarkUnavailable (slotId req))]).
Proof.
  cbv zeta. rewrite create_booking_unfold. cbv zeta.
  destruct (select_error o) eqn:Es.
  { cbn [calls snd In]. split; intros; intuition discriminate. }
  destruct (single (select_available db (slotId req))) as [slot|] eqn:Esel.
  2:{ cbn [calls snd In]. split; intros; intuition discriminate. }
  apply single_select_available in Esel. destruct Esel as (_ & _ & _ & Hm).
  assert (Hpay : forall d amount i,
             (db, CreatePayment (base_price_cents slot) (slotId req))
             = (d, CreatePayment amount i) ->
             d = db /\ i = slotId req /\ marked_available d i = true).
  { intros d amount i [= <- _ <-]. auto. }
  destruct (gateway o) as [session|] eqn:Eg.
  2:{ cbn [calls snd In]. split.
      - intros d amount i [H|[H|[]]]; [discriminate|]. now apply Hpay in H.
      - intros d i [H|[H|[]]]; discriminate. }
  destruct (insert_error o || reference_taken db (session_id session)).
  { cbn [calls snd In]. split.
    - intros d amount i [H|[H|[H|[]]]]; try discriminate. now apply Hpay in H.
    - intros d i [H|[H|[H|[]]]]; discriminate. }
  cbn [calls snd In]. split.
  - intros d amount i [H|[H|[H|[H|[]]]]]; try discriminate. now apply Hpay in H.
  - intros d i [H|[H|[H|[H|[]]]]]; try discriminate.
    injection H as <- <-. exists slot, session. auto.
Qed.

(** C10.  In a successful reservation, by either handler, the amount of the
    gateway call and the [amount_paid_cents] of the booking that is created
    are the [base_price_cents] of the slot row that was read; the slot's
    [current_price_cents] is not used, so whenever it differs from the base
    price it is not the amount charged. *)
Theorem c10_amount_is_base_price (h : Handler) (req : Request) (o : Outcomes)
    (db : DB) (bookingId : Id) (secret : string) (sid : option string) :
  let x := create_booking h req o db in
  response x = Some (Success bookingId secret sid) ->
  exists slot b,
    In slot (available_slots db) /\ id slot = slotId req /\
    In (db, CreatePayment (base_price_cents slot) (slotId req)) (calls x) /\
    (forall d amount i,
        In (d, CreatePayment amount i) (calls x) ->
        amount = base_price_cents slot) /\
    bookings (final_db x) = bookings db ++ [b] /\
    booking_id b = bookingId /\
    amount_paid_cents b = base_price_cents slot /\
    (current_price_cents slot <> base_price_cents slot ->
     amount_paid_cents b <> current_price_cents slot /\
     forall d amount i,
       In (d, CreatePayment amount i) (calls x) ->
       amount <> current_price_cents slot).
Proof.
  cbv zeta. rewrite create_booking_unfold. cbv zeta.
  destruct (select_error o); [discriminate|].
  destruct (single (select_available db (slotId req))) as [slot|] eqn:Esel;
    [|discriminate].
  apply single_select_available in Esel. destruct Esel as (Hin & Hid & _ & _).
  destruct (gateway o) as [session|]; [|discriminate].
  destruct (insert_error o || reference_taken db (session_id session));
    [discriminate|].
  cbn [response final_db calls fst snd]. intros Hr.
  assert (Hamount : forall d amount i,
             In (d, CreatePayment amount i)
                [(db, SelectSlot (slotId req));
                 (db, CreatePayment (base_price_cents slot) (slotId req));
                 (db, InsertBooking (new_booking db req slot session));
                 (mkDB (available_slots db)
                       (bookings db ++ [new_booking db req slot session]),
                  MarkUnavailable (slotId req))] ->
             amount = base_price_cents slot).
  { intros d amount i [H|[H|[H|[H|[]]]]]; try discriminate. now injection H. }
  exists slot, (new_booking db req slot session).
  split; [exact Hin|]. split; [exact Hid|].
  split; [cbn [In]; auto|]. split; [exact Hamount|].
  split; [destruct (update_error o); reflexivity|].
  split; [destruct h; cbn in Hr; now injection Hr|].
  split; [reflexivity|].
  intros Hne. split; [cbn [new_booking amount_paid_cents]; congruence|].
  intros d amount i H. apply Hamount in H. congruence.
Qed.

(** *** Several invocations *)

(** While no row of the slot is selected, every invocation for it is turned
    away and leaves the store alone. *)
Lemma serve_in_turn_unavailable (h : Handler) (db : DB) (s : Id)
    (rs : list (Request * Outcomes)) :
  select_available db s = [] ->
  Forall (fun r => slotId (fst r) = s) rs ->
  serve_in_turn h db rs = (db, map (fun _ => Some SlotNotAvailable) rs).
Proof.
  intros Hsel. induction 1 as [|[req o] rs Hr _ IH]; [reflexivity|].
  cbn [fst] in Hr. cbn [serve_in_turn map].
  rewrite create_booking_unfold. cbv zeta. rewrite Hr, Hsel. cbn [single].
  assert (E : (if select_error o then None else @None Slot) = None)
    by (destruct (select_error o); reflexivity).
  rewrite E. cbn [final_db response fst snd]. now rewrite IH.
Qed.

Lemma filter_succeeded_unavailable {A} (rs : list A) :
  filter succeeded (map (fun _ => Some SlotNotAvailable) rs) = [].
Proof. induction rs; [reflexivity|exact IHrs]. Qed.

(** C1, as the code has it.  The lookup and the update are two separate
    calls, so the guarantee holds for invocations that do not overlap:
    served one after the other, with no update lost, at most one invocation
    for a slot succeeds; and when the slot is available and the calls of the
    first invocation go through, that one succeeds and every later one is
    answered "Slot not available". *)
Theorem c1_one_success_when_served_in_turn (h : Handler) (s : Id)
    (rs : list (Request * Outcomes)) (db : DB) :
  Forall (fun r => slotId (fst r) = s /\ update_error (snd r) = false) rs ->
  let out := snd (serve_in_turn h db rs) in
  (List.length (filter succeeded out) <= 1)%nat /\
  (forall req o rest slot session,
      rs = (req, o) :: rest ->
      single (select_available db s) = Some slot ->
      select_error o = false -> gateway o = Some session ->
      insert_error o = false ->
      reference_taken db (session_id session) = false ->
      out = Some (success_body h (new_booking db req slot session) session)
            :: map (fun _ => Some SlotNotAvailable) rest).
Proof.
  intros Hrs. cbv zeta. split.
  - revert db. induction Hrs as [|[req o] rs [Hs Hu] Hrs IH]; intros db;
      [cbn; lia|].
    cbn [fst snd] in Hs, Hu. cbn [serve_in_turn].
    assert (Hrs' : Forall (fun r => slotId (fst r) = s) rs)
      by (eapply Forall_impl; [|exact Hrs]; now intros ? []).
    destruct (serve_in_turn h (final_db (create_booking h req o db)) rs)
      as [db' out] eqn:E.
    cbn [snd filter].
    destruct (succeeded (response (create_booking h req o db))) eqn:Hok.
    + rewrite create_booking_unfold in E, Hok. cbv zeta in E, Hok.
      destruct (if select_error o then None else _) as [slot|];
        [|discriminate].
      destruct (gateway o) as [session|]; [|discriminate].
      destruct (insert_error o || _); [discriminate|].
      rewrite Hu in E. cbn [final_db fst] in E.
      rewrite (serve_in_turn_unavailable h _ s) in E;
        [|rewrite <- Hs; apply select_after_set_unavailable|exact Hrs'].
      injection E as _ <-. rewrite filter_succeeded_unavailable. cbn. lia.
    + specialize (IH (final_db (create_booking h req o db))).
      rewrite E in IH. exact IH.
  - intros req o rest slot session -> Hsel Hse Hg Hi Hr.
    inversion Hrs as [|? ? [Hs Hu] Hrest]; subst. cbn [fst snd] in *.
    cbn [serve_in_turn]. rewrite create_booking_unfold. cbv zeta.
    rewrite Hse, Hsel, Hg, Hi, Hr, Hu. cbn [orb final_db response fst snd].
    rewrite (serve_in_turn_unavailable h _ (slotId req));
      [reflexivity|apply select_after_set_unavailable|].
    eapply Forall_impl; [|exact Hrest]. now intros ? [].
Qed.

(** C1, as the spec words it: of the reservations in flight for one slot
    exactly one succeeds.  Alice's and Bob's invocations, their calls served
    alternately, both find the slot available, both pay, both get their
    booking inserted and both answer with success. *)
Lemma c1_counterexample :
  let run :=
    interleave edge_function Scenario.store
      [start (Scenario.alice, Scenario.all_fine "cs_alice");
       start (Scenario.bob, Scenario.all_fine "cs_bob")]
      [0; 1; 0; 1; 0; 1; 0; 1]%nat in
  forallb (fun t => finished (t_pc t)) (snd run) = true /\
  map (fun t => slotId (t_req t)) (snd run) = [1; 1] /\
  ~ (List.length (filter (fun t => is_success (t_pc t)) (snd run)) = 1%nat /\
     List.length (filter (fun t => is_unavailable (t_pc t)) (snd run)) = 1%nat) /\
  List.length (filter (fun t => is_success (t_pc t)) (snd run)) = 2%nat /\
  map (fun b => (slot_id b, status b)) (bookings (fst run))
  = [(1, pending); (1, pending)].
Proof.
  vm_compute. repeat split. intros [H _]. discriminate H.
Qed.

Lemma c1_witness :
  Forall (fun r => slotId (fst r) = 1 /\ update_error (snd r) = false)
         [(Scenario.alice, Scenario.all_fine "cs_alice");
          (Scenario.bob, Scenario.all_fine "cs_bob")] /\
  (List.length
     (filter succeeded
        (snd (serve_in_turn edge_function Scenario.store
                [(Scenario.alice, Scenario.all_fine "cs_alice");
                 (Scenario.bob, Scenario.all_fine "cs_bob")]))) <= 1)%nat.
Proof.
  assert (H : Forall (fun r => slotId (fst r) = 1 /\ update_error (snd r) = false)
                [(Scenario.alice, Scenario.all_fine "cs_alice");
                 (Scenario.bob, Scenario.all_fine "cs_bob")]).
  { repeat constructor. }
  split; [exact H|].
  exact (proj1 (c1_one_success_when_served_in_turn edge_function 1 _
                  Scenario.store H)).
Defined.

(** C2, as the spec words it: the booking and the flip of the slot happen
    together or not at all.  When the last update fails, the invocation
    answers with success, the pending booking is stored and the slot is
    still marked available.  And between the insert and the update of an
    invocation whose calls all go through, the booking is there with the
    slot still available, which another invocation then finds. *)
Lemma c2_counterexample :
  let x := create_booking edge_function Scenario.alice
             (Scenario.update_lost "cs_alice") Scenario.store in
  let midway :=
    interleave edge_function Scenario.store
      [start (Scenario.alice, Scenario.all_fine "cs_alice");
       start (Scenario.bob, Scenario.all_fine "cs_bob")]
      [0; 0; 0; 1]%nat in
  succeeded (response x) = true /\
  map (fun b => (slot_id b, status b)) (bookings (final_db x)) = [(1, pending)] /\
  marked_available (final_db x) 1 = true /\
  ~ ((bookings (final_db x) <> bookings Scenario.store /\
      marked_available (final_db x) 1 = false) \/
     (bookings (final_db x) = bookings Scenario.store /\
      marked_available (final_db x) 1 = marked_available Scenario.store 1)) /\
  map (fun b => (slot_id b, status b)) (bookings (fst midway)) = [(1, pending)] /\
  marked_available (fst midway) 1 = true /\
  map (fun t => match t_pc t with AtGateway slot => Some (id slot) | _ => None end)
      (skipn 1 (snd midway)) = [Some 1].
Proof.
  vm_compute. repeat split. intros [[_ H]|[H _]]; discriminate H.
Qed.

Lemma c2_witness :
  gateway Scenario.gateway_down = None /\
  final_db (create_booking edge_function Scenario.alice Scenario.gateway_down
              Scenario.store) = Scenario.store.
Proof.
  split; [reflexivity|].
  apply (proj1 (proj2 (c2_effects_of_one_reservation edge_function
                         Scenario.alice Scenario.gateway_down Scenario.store))).
  left. reflexivity.
Defined.

(** C3, as the spec words it: the gateway call is never issued while the
    slot is still marked available.  In Alice's successful reservation it
    is. *)
Lemma c3_counterexample :
  let x := create_booking edge_function Scenario.alice
             (Scenario.all_fine "cs_alice") Scenario.store in
  succeeded (response x) = true /\
  ~ (forall d amount i,
        In (d, CreatePayment amount i) (calls x) ->
        marked_available d i = false).
Proof.
  cbv zeta. split; [reflexivity|]. intros H.
  specialize (H Scenario.store 4000 1).
  assert (marked_available Scenario.store 1 = false); [|discriminate].
  apply H. vm_compute. right. left. reflexivity.
Qed.

Lemma c3_witness :
  In (Scenario.store, CreatePayment 4000 1)
     (calls (create_booking edge_function Scenario.alice
               (Scenario.all_fine "cs_alice") Scenario.store)) /\
  marked_available Scenario.store 1 = true.
Proof.
  assert (Hin : In (Scenario.store, CreatePayment 4000 1)
                  (calls (create_booking edge_function Scenario.alice
                            (Scenario.all_fine "cs_alice") Scenario.store))).
  { vm_compute. right. left. reflexivity. }
  split; [exact Hin|].
  apply (proj1 (c3_payment_request_precedes_the_mark edge_function
                  Scenario.alice (Scenario.all_fine "cs_alice") Scenario.store)
               _ _ _ Hin).
Defined.

Lemma c10_witness :
  response (create_booking api_route Scenario.alice
              (Scenario.all_fine "pi_alice") Scenario.store)
  = Some (Success 1 "https://pay" None) /\
  exists slot b,
    In slot (available_slots Scenario.store) /\ id slot = 1 /\
    In (Scenario.store, CreatePayment (base_price_cents slot) 1)
       (calls (create_booking api_route Scenario.alice
                 (Scenario.all_fine "pi_alice") Scenario.store)) /\
    amount_paid_cents b = base_price_cents slot.
Proof.
  assert (Hr : response (create_booking api_route Scenario.alice
                           (Scenario.all_fine "pi_alice") Scenario.store)
               = Some (Success 1 "https://pay" None)) by reflexivity.
  split; [exact Hr|].
  destruct (c10_amount_is_base_price api_route Scenario.alice
              (Scenario.all_fine "pi_alice") Scenario.store _ _ _ Hr)
    as (slot & b & Hin & Hid & Hcall & _ & _ & _ & Hpaid & _).
  exists slot, b. auto.
Defined.

End CreateBookingFacts.

(** ** Payment notifications *)

Section StripeWebhookFacts.

Import StripeWebhook.

Lemma as_confirmed_confirmed (b : Booking) :
  status b = confirmed -> as_confirmed b = b.
Proof. destruct b; cbn. now intros ->. Qed.

Lemma has_reference_as_confirmed (ref : string) (b : Booking) :
  has_reference ref (as_confirmed b) = has_reference ref b.
Proof. reflexivity. Qed.

Lemma confirm_idempotent (ref : string) (bs : list Booking) :
  confirm ref (confirm ref bs) = confirm ref bs.
Proof.
  unfold confirm. rewrite map_map. apply map_ext. intros b.
  destruct (has_reference ref b) eqn:E.
  - now rewrite has_reference_as_confirmed, E.
  - now rewrite E.
Qed.

(** After the update, the confirmed bookings of the reference are the
    bookings of the reference, confirmed. *)
Lemma confirmed_after_confirm (ref : string) (bs : list Booking) :
  filter (fun b => has_reference ref b && Status_eqb (status b) confirmed)
         (confirm ref bs)
  = map as_confirmed (filter (has_reference ref) bs).
Proof.
  unfold confirm. induction bs as [|b bs IH]; [reflexivity|].
  cbn [map filter]. destruct (has_reference ref b) eqn:E.
  - rewrite has_reference_as_confirmed, E. cbn. now rewrite IH.
  - rewrite E. cbn. exact IH.
Qed.

Lemma handle_completed (o : Outcomes) (db : DB) (ev : Event) :
  type ev = "checkout.session.completed" ->
  handle_event o db ev
  = if confirm_error o then db
    else mkDB (available_slots db) (confirm (object_id ev) (bookings db)).
Proof. unfold handle_event. now intros ->. Qed.

Lemma handle_expired (o : Outcomes) (db : DB) (ev : Event) (b : Booking) :
  type ev = "checkout.session.expired" ->
  lookup_error o = false ->
  filter (has_reference (object_id ev)) (bookings db) = [b] ->
  handle_event o db ev
  = mkDB (if release_error o then available_slots db
          else CreateBooking.set_available true (slot_id b) (available_slots db))
         (if delete_error o then bookings db
          else filter (fun b => negb (has_reference (object_id ev) b))
                      (bookings db)).
Proof.
  unfold handle_event. intros -> -> ->. reflexivity.
Qed.

(** C6, as the code has it.  The handler goes by the payment reference
    alone and never looks at the status of a booking.  Whatever the
    notification, bookings of other references stay as they are.  A
    completed notification deletes nothing, leaves the slots alone and
    leaves a confirmed booking as it is, and when its update takes effect
    every booking of the reference is confirmed, whatever it was before.
    An expired notification that finds the one booking of its reference
    deletes it and marks its slot available again, whatever its status. *)
Theorem c6_notifications_go_by_reference (o : Outcomes) (db : DB) (ev : Event) :
  let db' := handle_event o db ev in
  (forall b, In b (bookings db) -> has_reference (object_id ev) b = false ->
             In b (bookings db')) /\
  (type ev = "checkout.session.completed" ->
   available_slots db' = available_slots db /\
   map booking_id (bookings db') = map booking_id (bookings db) /\
   (forall b, In b (bookings db) -> status b = confirmed ->
              In b (bookings db')) /\
   (confirm_error o = false ->
    forall b, In b (bookings db') -> has_reference (object_id ev) b = true ->
              status b = confirmed)) /\
  (type ev = "checkout.session.expired" ->
   forall b,
     filter (has_reference (object_id ev)) (bookings db) = [b] ->
     lookup_error o = false ->
     (delete_error o = false ->
      bookings db'
      = filter (fun b => negb (has_reference (object_id ev) b)) (bookings db) /\
      ~ In b (bookings db')) /\
     (release_error o = false ->
      available_slots db'
      = CreateBooking.set_available true (slot_id b) (available_slots db))).
Proof.
  cbv zeta. split; [|split].
  - intros b Hin Hother. unfold handle_event.
    destruct (String.eqb (type ev) "checkout.session.completed").
    { destruct (confirm_error o); [exact Hin|]. cbn [bookings].
      unfold confirm. apply in_map_iff. exists b. now rewrite Hother. }
    destruct (String.eqb (type ev) "checkout.session.expired"); [|exact Hin].
    destruct (if lookup_error o then None else _); [|exact Hin].
    cbn [bookings]. destruct (delete_error o); [exact Hin|].
    apply filter_In. now rewrite Hother.
  - intros Ht. rewrite (handle_completed o db ev Ht).
    destruct (confirm_error o); cbn [available_slots bookings].
    + repeat split; auto. discriminate.
    + repeat split.
      * unfold confirm. rewrite map_map. apply map_ext. intros b.
        now destruct (has_reference (object_id ev) b).
      * intros b Hin Hst. unfold confirm. apply in_map_iff. exists b.
        split; [|exact Hin].
        destruct (has_reference (object_id ev) b); [|reflexivity].
        now apply as_confirmed_confirmed.
      * intros _ b Hin Href. unfold confirm in Hin. apply in_map_iff in Hin.
        destruct Hin as (b0 & <- & _).
        destruct (has_reference (object_id ev) b0) eqn:E; [reflexivity|].
        congruence.
  - intros Ht b Hone Hl. rewrite (handle_expired o db ev b Ht Hl Hone).
    cbn [available_slots bookings]. split.
    + intros ->. split; [reflexivity|].
      intros Hin. apply filter_In in Hin. destruct Hin as [_ Hneg].
      assert (Hb : In b (filter (has_reference (object_id ev)) (bookings db)))
        by (rewrite Hone; now left).
      apply filter_In in Hb. destruct Hb as [_ Hb]. now rewrite Hb in Hneg.
    + now intros ->.
Qed.

(** C7.  A completed notification that verifies is answered [received]
    both times it is delivered and leaves the slots as they are, so the slot
    stays unavailable; when the first delivery's update took effect the
    second changes nothing; and when either took effect, the one booking of
    the payment reference is the one confirmed booking of that reference. *)
Theorem c7_completed_twice (secret sig payload : string)
    (constructEvent : string -> string -> string -> option Event)
    (o1 o2 : Outcomes) (db : DB) (ev : Event) :
  String.eqb sig "" = false -> String.eqb secret "" = false ->
  constructEvent payload sig secret = Some ev ->
  type ev = "checkout.session.completed" ->
  let deliver o db :=
    webhook (Some secret) constructEvent o db (mkDelivery (Some sig) payload) in
  let first := deliver o1 db in
  let second := deliver o2 (fst first) in
  snd first = Received /\ snd second = Received /\
  available_slots (fst second) = available_slots db /\
  (confirm_error o1 = false -> fst second = fst first) /\
  (confirm_error o1 = false \/ confirm_error o2 = false ->
   forall b,
     filter (has_reference (object_id ev)) (bookings db) = [b] ->
     filter (fun b' => has_reference (object_id ev) b'
                       && Status_eqb (status b') confirmed)
            (bookings (fst second))
     = [as_confirmed b]).
Proof.
  intros Hsig Hsecret Hev Ht. cbv zeta.
  unfold webhook. cbn [signature body falsy]. rewrite Hsig, Hsecret, Hev.
  cbn [orb fst snd]. rewrite !(handle_completed _ _ ev Ht).
  split; [reflexivity|]. split; [reflexivity|].
  split; [|split].
  - destruct (confirm_error o1), (confirm_error o2); reflexivity.
  - intros ->. destruct (confirm_error o2); [reflexivity|].
    cbn [available_slots bookings]. now rewrite confirm_idempotent.
  - intros Hok b Hone.
    assert (E : bookings
                  (if confirm_error o2
                   then if confirm_error o1 then db
                        else mkDB (available_slots db)
                                  (confirm (object_id ev) (bookings db))
                   else mkDB
                          (available_slots
                             (if confirm_error o1 then db
                              else mkDB (available_slots db)
                                        (confirm (object_id ev) (bookings db))))
                          (confirm (object_id ev)
                             (bookings
                                (if confirm_error o1 then db
                                 else mkDB (available_slots db)
                                           (confirm (object_id ev) (bookings db))))))
                = confirm (object_id ev) (bookings db)).
    { destruct (confirm_error o1), (confirm_error o2); cbn [bookings];
        try reflexivity.
      - destruct Hok; discriminate.
      - apply confirm_idempotent. }
    rewrite E, confirmed_after_confirm, Hone. reflexivity.
Qed.

(** C6, as the spec words it: no notification takes a booking out of
    [confirmed], [cancelled] or [completed].  An expired notification for
    the reference of Alice's confirmed booking deletes the booking and
    marks the sold slot available; a completed notification for a cancelled
    booking confirms it. *)
Lemma c6_counterexample :
  let expired := mkEvent "checkout.session.expired" "cs_alice" in
  let ok := mkOutcomes false false false false in
  let after :=
    fst (webhook (Some "whsec") (fun _ _ _ => Some expired) ok
           Scenario.sold_store (mkDelivery (Some "t=1,v1=abc") "{}")) in
  ~ (forall b, In b (bookings Scenario.sold_store) -> status b = confirmed ->
               In b (bookings after)) /\
  bookings after = [] /\
  CreateBooking.marked_available Scenario.sold_store 1 = false /\
  CreateBooking.marked_available after 1 = true /\
  map status
      (bookings
         (handle_event ok
            (mkDB [] [mkBooking 7 1 "Bob" "bob@example.com" "222" "cs_bob"
                                4000 cancelled])
            (mkEvent "checkout.session.completed" "cs_bob")))
  = [confirmed].
Proof.
  cbv zeta. split; [|vm_compute; auto].
  intros H. specialize (H Scenario.paid_booking).
  vm_compute in H. apply H; auto.
Qed.

Lemma c6_witness :
  let ev := mkEvent "checkout.session.completed" "cs_alice" in
  let ok := mkOutcomes false false false false in
  In Scenario.paid_booking (bookings Scenario.sold_store) /\
  status Scenario.paid_booking = confirmed /\
  In Scenario.paid_booking (bookings (handle_event ok Scenario.sold_store ev)).
Proof.
  cbv zeta.
  assert (Hin : In Scenario.paid_booking (bookings Scenario.sold_store))
    by (now left).
  split; [exact Hin|]. split; [reflexivity|].
  apply (proj1 (proj2 (proj2 (proj1 (proj2
           (c6_notifications_go_by_reference
              (mkOutcomes false false false false) Scenario.sold_store
              (mkEvent "checkout.session.completed" "cs_alice")))
           eq_refl))) _ Hin eq_refl).
Defined.

Lemma c7_witness :
  let ev := mkEvent "checkout.session.completed" "cs_alice" in
  let ok := mkOutcomes false false false false in
  let pending_store :=
    mkDB [mkSlot 1 "Court A" 19725 "07:00:00" "08:30:00" 4000 5000 false]
         [mkBooking 1 1 "Alice" "alice@example.com" "111" "cs_alice" 4000
                    pending] in
  let deliver db :=
    webhook (Some "whsec") (fun _ _ _ => Some ev) ok db
            (mkDelivery (Some "t=1,v1=abc") "{}") in
  snd (deliver (fst (deliver pending_store))) = Received /\
  fst (deliver (fst (deliver pending_store))) = fst (deliver pending_store) /\
  fst (deliver pending_store) = Scenario.sold_store.
Proof.
  cbv zeta.
  pose proof (c7_completed_twice "whsec" "t=1,v1=abc" "{}"
                (fun _ _ _ => Some (mkEvent "checkout.session.completed" "cs_alice"))
                (mkOutcomes false false false false)
                (mkOutcomes false false false false)
                (mkDB [mkSlot 1 "Court A" 19725 "07:00:00" "08:30:00" 4000 5000 false]
                      [mkBooking 1 1 "Alice" "alice@example.com" "111"
                                 "cs_alice" 4000 pending])
                (mkEvent "checkout.session.completed" "cs_alice")
                eq_refl eq_refl eq_refl eq_refl) as H.
  cbv zeta in H. destruct H as (_ & H2 & _ & H4 & _).
  split; [exact H2|]. split; [exact (H4 eq_refl)|]. reflexivity.
Defined.

End StripeWebhookFacts.
(** * Further properties *)

(** ** More on the slot generator *)

Section MoreSlotGenFacts.

Import SlotGen Payload.

(** Linear goals over the quotients and remainders of the loops. *)
Ltac div_lia := Z.div_mod_to_equations; lia.

Section OneCourtMore.

Variable LocalTZA : TimeZone.
Variable courtName : string.
Variable offset_minutes : Z.

Local Abbreviation slot_at := (slot_at courtName offset_minutes).
Local Abbreviation hour_loop := (hour_loop courtName offset_minutes).
Local Abbreviation slots_of_day :=
  (slots_of_day LocalTZA courtName offset_minutes).

(** *** Back to back *)

Lemma slot_at_end_next_start (d p p' half : Z) :
  n_end_time (slot_at d p half) = n_start_time (slot_at d p' (half + 3)).
Proof.
  unfold SlotGen.slot_at. cbn [n_end_time n_start_time].
  replace ((half + 3) * 30 + offset_minutes)
    with (half * 30 + offset_minutes + 90) by lia.
  reflexivity.
Qed.

Lemma hour_loop_first (fuel : nat) (d p half : Z) (x : NewSlot) :
  nth_error (hour_loop fuel d p half) 0 = Some x -> x = slot_at d p half.
Proof.
  destruct fuel as [|fuel]; cbn [SlotGen.hour_loop nth_error]; [discriminate|].
  destruct (half <? 46); [|discriminate].
  destruct (_ >=? 23); [discriminate|]. now intros [= <-].
Qed.

Lemma hour_loop_adjacent (fuel : nat) (d p half : Z) (i : nat) (a b : NewSlot) :
  nth_error (hour_loop fuel d p half) i = Some a ->
  nth_error (hour_loop fuel d p half) (S i) = Some b ->
  n_end_time a = n_start_time b.
Proof.
  revert half i. induction fuel as [|fuel IH]; intros half i;
    cbn [SlotGen.hour_loop]; [now destruct i|].
  destruct (half <? 46); [|now destruct i].
  destruct (_ >=? 23); [now destruct i|].
  destruct i as [|i]; cbn [nth_error].
  - intros [= <-] Hb. apply hour_loop_first in Hb. subst b.
    apply slot_at_end_next_start.
  - apply IH.
Qed.

Lemma slots_of_day_date (t : Z) (s : NewSlot) :
  In s (slots_of_day t) -> n_slot_date s = Day t.
Proof.
  intros H. apply slots_of_day_In in H. now destruct H as (k & _ & _ & ->).
Qed.

Lemma slots_of_day_adjacent (t : Z) (i : nat) (a b : NewSlot) :
  nth_error (slots_of_day t) i = Some a ->
  nth_error (slots_of_day t) (S i) = Some b ->
  n_slot_date a = n_slot_date b /\ n_end_time a = n_start_time b.
Proof.
  intros Ha Hb. split.
  - apply nth_error_In in Ha, Hb. apply slots_of_day_date in Ha, Hb.
    congruence.
  - unfold SlotGen.slots_of_day in Ha, Hb.
    eapply hour_loop_adjacent; eassumption.
Qed.

(** Passes at instants of growing dates: neighbours of one date are
    neighbours of one pass. *)
Lemma flat_map_adjacent (ts : list Z) (i : nat) (a b : NewSlot) :
  StronglySorted (fun t t' => Day t < Day t') ts ->
  nth_error (flat_map slots_of_day ts) i = Some a ->
  nth_error (flat_map slots_of_day ts) (S i) = Some b ->
  n_slot_date a = n_slot_date b ->
  n_end_time a = n_start_time b.
Proof.
  intros Hts. revert i.
  induction Hts as [|t ts Hts IH Ht]; intros i; cbn [flat_map];
    [now destruct i|].
  set (day := slots_of_day t). set (rest := flat_map slots_of_day ts).
  intros Ha Hb Hdate.
  destruct (Nat.lt_ge_cases (S i) (List.length day)) as [Hin|Hout].
  - rewrite nth_error_app1 in Ha, Hb by lia.
    eapply slots_of_day_adjacent; eassumption.
  - destruct (Nat.lt_ge_cases i (List.length day)) as [Hlast|Hrest].
    + exfalso. rewrite nth_error_app1 in Ha by lia.
      rewrite nth_error_app2 in Hb by lia.
      apply nth_error_In in Ha, Hb.
      apply slots_of_day_date in Ha.
      apply in_flat_map in Hb. destruct Hb as (t' & Ht' & Hb).
      apply slots_of_day_date in Hb.
      rewrite Forall_forall in Ht. specialize (Ht t' Ht'). lia.
    + rewrite nth_error_app2 in Ha, Hb by lia.
      replace (S i - List.length day)%nat with (S (i - List.length day)) in Hb
        by lia.
      eapply IH; eassumption.
Qed.

(** *** How many *)

Lemma hour_loop_length (fuel : nat) (d p half : Z) :
  Z.of_nat (List.length (hour_loop fuel d p half))
  = Z.max 0 (Z.min (Z.of_nat fuel)
                   (Z.min ((46 - half + 2) / 3)
                          ((1380 - (half * 30 + offset_minutes) + 89) / 90))).
Proof.
  revert half. induction fuel as [|fuel IH]; intros half;
    cbn [SlotGen.hour_loop]; [cbn [List.length]; lia|].
  destruct (Z.ltb_spec half 46) as [H46|H46].
  - destruct (Z.geb_spec ((half * 30 + offset_minutes) / 60) 23) as [H23|H23].
    + cbn [List.length]. div_lia.
    + cbn [List.length]. rewrite Nat2Z.inj_succ, IH. div_lia.
  - cbn [List.length]. div_lia.
Qed.

Lemma slots_of_day_length (t : Z) :
  Z.of_nat (List.length (slots_of_day t))
  = Z.max 0 (Z.min 11 ((960 - offset_minutes + 89) / 90)).
Proof.
  unfold SlotGen.slots_of_day, hour_fuel. rewrite hour_loop_length. div_lia.
Qed.

Lemma flat_map_slots_length (ts : list Z) :
  Z.of_nat (List.length (flat_map slots_of_day ts))
  = Z.of_nat (List.length ts)
    * Z.max 0 (Z.min 11 ((960 - offset_minutes + 89) / 90)).
Proof.
  induction ts as [|t ts IH]; cbn [flat_map List.length]; [lia|].
  rewrite length_app, Nat2Z.inj_add, slots_of_day_length, IH. lia.
Qed.

End OneCourtMore.

(** *** Keys of the payload *)

Lemma ForallOrdPairs_impl_In {A} (R S : A -> A -> Prop) (l : list A) :
  (forall a b, In a l -> In b l -> R a b -> S a b) ->
  ForallOrdPairs R l -> ForallOrdPairs S l.
Proof.
  intros HRS H. induction H as [|a l Ha Hl IH]; constructor.
  - rewrite Forall_forall in *. intros b Hb.
    apply HRS; [now left|now right|now apply Ha].
  - apply IH. intros x y Hx Hy. apply HRS; now right.
Qed.

Lemma ForallOrdPairs_NoDup_map {A B} (f : A -> B) (l : list A) :
  ForallOrdPairs (fun a b => f a <> f b) l -> NoDup (map f l).
Proof.
  induction 1 as [|a l Ha Hl IH]; cbn [map]; constructor; [|exact IH].
  intros Hin. apply in_map_iff in Hin. destruct Hin as (b & Hb & Hin).
  rewrite Forall_forall in Ha. now apply (Ha b Hin).
Qed.

(** A slot generated with an offset that is not negative: the pass it
    comes from, its tick, the minute its start text denotes and its
    interval. *)
Lemma generated_interval (LocalTZA : TimeZone) (courtName : string)
    (offset_minutes s e : Z) (x : NewSlot) :
  0 <= offset_minutes ->
  In x (generateSlotsForCourt LocalTZA courtName offset_minutes s e) ->
  exists t k,
    In t (visited LocalTZA s e) /\ n_slot_date x = Day t /\
    0 <= k <= 10 /\ 420 + offset_minutes + 90 * k < 1380 /\
    minutes_of_time (n_start_time x) = Some (420 + offset_minutes + 90 * k) /\
    n_end_time x
    = time_text ((510 + offset_minutes + 90 * k) / 60)
                ((510 + offset_minutes + 90 * k) mod 60) /\
    interval x = Some (n_slot_date x * 1440 + (420 + offset_minutes + 90 * k),
                       n_slot_date x * 1440 + (420 + offset_minutes + 90 * k) + 90).
Proof.
  intros Hoff Hin. apply generateSlotsForCourt_In in Hin.
  destruct Hin as (t & Ht & Hin). apply slots_of_day_In in Hin.
  destruct Hin as (k & Hk & Hlt & ->).
  exists t, k. cbn [slot_at n_slot_date]. split; [exact Ht|].
  split; [reflexivity|]. split; [exact Hk|]. split; [exact Hlt|].
  assert (H23 : ((14 + 3 * k) * 30 + offset_minutes) / 60 < 23) by div_lia.
  split; [|split].
  - unfold slot_at. cbn [n_start_time]. rewrite Z.rem_mod_nonneg by lia.
    rewrite minutes_of_time_text; [f_equal; div_lia|div_lia|div_lia].
  - unfold slot_at. cbn [n_end_time]. rewrite Z.rem_mod_nonneg by lia.
    f_equal; f_equal; lia.
  - rewrite interval_slot_at by (lia || exact H23). f_equal. f_equal; lia.
Qed.

(** In a zone of one offset, with offsets that are not negative and
    distinct court names, no two rows of the payload have the same key. *)
Lemma all_slots_keys (LocalTZA : TimeZone) (offset : Z)
    (courts : list (string * Z)) (s e : Z) :
  (forall t b, LocalTZA t b = offset) ->
  NoDup (map fst courts) -> Forall (fun c => 0 <= snd c) courts ->
  NoDup (map n_key (all_slots LocalTZA courts s e)).
Proof.
  intros Hone Hnd Hpos. apply ForallOrdPairs_NoDup_map.
  induction courts as [|[n off] cs IH]; cbn [all_slots flat_map];
    [constructor|].
  cbn [map fst] in Hnd. inversion Hnd as [|? ? Hnotin Hnd']; subst.
  inversion Hpos as [|? ? Hoff Hpos']; subst. cbn [snd] in Hoff.
  apply ForallOrdPairs_app.
  - eapply ForallOrdPairs_impl_In;
      [|apply (generateSlotsForCourt_chain LocalTZA n off offset s e Hone)].
    cbn [fst snd]. intros a b Ha Hb Hab Hkey.
    apply (generated_interval LocalTZA n off s e a Hoff) in Ha.
    apply (generated_interval LocalTZA n off s e b Hoff) in Hb.
    destruct Ha as (ta & ka & _ & _ & _ & _ & Hsa & _ & Ia).
    destruct Hb as (tb & kb & _ & _ & _ & _ & Hsb & _ & Ib).
    specialize (Hab _ _ _ _ Ia Ib).
    unfold n_key in Hkey. injection Hkey as _ Hd Ht.
    rewrite Ht, Hsb in Hsa.
    assert (Hk : 420 + off + 90 * kb = 420 + off + 90 * ka) by congruence.
    lia.
  - now apply IH.
  - intros a b Ha Hb Hkey. apply Hnotin.
    cbn [fst snd] in Ha. apply generateSlotsForCourt_court in Ha.
    unfold all_slots in Hb. apply in_flat_map in Hb.
    destruct Hb as ([n' off'] & Hc & Hb). cbn [fst snd] in Hb.
    apply generateSlotsForCourt_court in Hb.
    unfold n_key in Hkey. injection Hkey as Hn _ _.
    apply in_map_iff. exists (n', off'). split; [cbn; congruence|exact Hc].
Qed.

(** With offsets from 0 to 30 every row of the payload lies within its
    date, from 07:00 on and up to 24:00. *)
Lemma all_slots_within_the_date (LocalTZA : TimeZone)
    (courts : list (string * Z)) (s e : Z) :
  Forall (fun c => 0 <= snd c <= 30) courts ->
  Forall (fun n => exists a b,
              interval n = Some (a, b) /\
              n_slot_date n * 1440 + 420 <= a /\
              b <= (n_slot_date n + 1) * 1440)
         (all_slots LocalTZA courts s e).
Proof.
  intros Hoff. apply Forall_forall. intros n Hn.
  unfold all_slots in Hn. apply in_flat_map in Hn.
  destruct Hn as ([name off] & Hc & Hn). cbn [fst snd] in Hn.
  rewrite Forall_forall in Hoff. specialize (Hoff _ Hc). cbn [snd] in Hoff.
  apply generated_interval in Hn; [|lia].
  destruct Hn as (t & k & _ & _ & Hk & _ & _ & _ & Hi).
  eexists _, _. split; [exact Hi|]. lia.
Qed.

Lemma Forall_offsets (courts : list (string * Z)) :
  Forall (fun c => 0 <= snd c <= 30) courts ->
  Forall (fun c => 0 <= snd c) courts.
Proof. apply Forall_impl. intros c H. lia. Qed.

Lemma payload_of_inserted (t : list Slot) (n : NewSlot) :
  payload_of (inserted t n) = n.
Proof. now destruct n. Qed.

(** Payload rows none of whose keys is stored are appended, one stored row
    each, in the order of the payload. *)
Lemma upsert_new_keys (rows : list NewSlot) (t : list Slot) :
  NoDup (map n_key rows) ->
  (forall n, In n rows -> existsb (fun r => same_key r n) t = false) ->
  exists added,
    upsert t rows = t ++ added /\
    map payload_of added = rows /\
    Forall (fun r => is_available r = true /\
                     current_price_cents r = base_price_cents r) added.
Proof.
  unfold upsert. revert t.
  induction rows as [|n rows IH]; intros t Hnd Hnew; cbn [fold_left].
  - exists []. now rewrite app_nil_r.
  - cbn [map] in Hnd. inversion Hnd as [|? ? Hnotin Hnd']; subst.
    unfold upsert_row at 2. rewrite (Hnew n) by now left.
    destruct (IH (t ++ [inserted t n]) Hnd') as (added & E & Hp & Hav).
    + intros n' Hn'. rewrite existsb_app, (Hnew n') by now right.
      cbn [existsb orb].
      destruct (same_key (inserted t n) n') eqn:Hs; [|reflexivity].
      exfalso. apply Hnotin. apply same_key_iff_key in Hs.
      apply in_map_iff. exists n'. split; [|exact Hn'].
      unfold n_key. rewrite <- Hs. reflexivity.
    + exists (inserted t n :: added). rewrite E, <- app_assoc. cbn [app map].
      rewrite payload_of_inserted, Hp. repeat split.
      constructor; [now split|exact Hav].
Qed.

(** The payload of a run has one pass of every court for each instant
    visited. *)
Lemma all_slots_length (LocalTZA : TimeZone) (courts : list (string * Z))
    (s e : Z) :
  Z.of_nat (List.length (all_slots LocalTZA courts s e))
  = Z.of_nat (List.length (visited LocalTZA s e))
    * fold_right Z.add 0
        (map (fun c => Z.max 0 (Z.min 11 ((960 - snd c + 89) / 90))) courts).
Proof.
  induction courts as [|[name off] cs IH];
    cbn [all_slots flat_map map fold_right]; [cbn [List.length]; lia|].
  fold (all_slots LocalTZA cs s e).
  rewrite length_app, Nat2Z.inj_add, IH. cbn [fst snd].
  rewrite generateSlotsForCourt_visited, flat_map_slots_length. ring.
Qed.

Lemma visited_one_offset_length (LocalTZA : TimeZone) (offset s e : Z) :
  (forall t b, LocalTZA t b = offset) ->
  Z.of_nat (List.length (visited LocalTZA s e)) = Z.max 0 (e - s + 1).
Proof.
  intros Hone. rewrite (visited_one_offset LocalTZA offset Hone).
  rewrite length_map, length_seq. lia.
Qed.

(** In a zone of one offset no two slots of a court overlap. *)
Lemma all_slots_no_overlap (LocalTZA : TimeZone) (offset : Z)
    (courts : list (string * Z)) (s e : Z) :
  (forall t b, LocalTZA t b = offset) ->
  NoDup (map fst courts) ->
  ForallOrdPairs
    (fun a b => n_court_name a = n_court_name b -> ~ overlap a b)
    (all_slots LocalTZA courts s e).
Proof.
  intros Hone Hnd.
  induction courts as [|[n off] cs IH]; cbn [all_slots flat_map];
    [constructor|].
  cbn [map fst] in Hnd. inversion Hnd as [|? ? Hnotin Hnd']; subst.
  apply ForallOrdPairs_app.
  - eapply ForallOrdPairs_impl;
      [|apply (generateSlotsForCourt_chain LocalTZA n off offset s e Hone)].
    intros a b Hab _. now apply before_not_overlap.
  - apply IH, Hnd'.
  - intros a b Ha Hb Hsame. exfalso. apply Hnotin.
    cbn [fst snd] in Ha. apply generateSlotsForCourt_court in Ha.
    unfold all_slots in Hb. apply in_flat_map in Hb.
    destruct Hb as ([n' off'] & Hc & Hb). cbn [fst snd] in Hb.
    apply generateSlotsForCourt_court in Hb.
    apply in_map_iff. exists (n', off'). split; [cbn; congruence|exact Hc].
Qed.

(** *** Looking up what a run wrote *)

Lemma key_refresh (m : NewSlot) (r : Slot) : key (refresh m r) = key r.
Proof. apply kept_key, kept_refresh. Qed.

Lemma refresh_all_other (rows : list NewSlot) (r : Slot) :
  (forall m, In m rows -> same_key r m = false) ->
  fold_left (fun r m => refresh m r) rows r = r.
Proof.
  induction rows as [|m rows IH]; intros H; cbn [fold_left]; [reflexivity|].
  unfold refresh at 2. rewrite (H m) by now left.
  apply IH. intros m' Hm'. apply H. now right.
Qed.

(** With distinct keys in the payload, a stored row of the key of a payload
    row ends up with the columns of that row. *)
Lemma refresh_all_payload (rows : list NewSlot) (n : NewSlot) (r : Slot) :
  NoDup (map n_key rows) -> In n rows -> same_key r n = true ->
  payload_of (fold_left (fun r m => refresh m r) rows r) = n.
Proof.
  revert r. induction rows as [|m rows IH]; intros r Hnd Hin Hs; [destruct Hin|].
  cbn [map] in Hnd. inversion Hnd as [|? ? Hnotin Hnd']; subst.
  cbn [fold_left]. destruct Hin as [->|Hin].
  - rewrite refresh_all_other.
    + unfold refresh. rewrite Hs. now destruct n.
    + intros m' Hm'. destruct (same_key (refresh n r) m') eqn:E; [|reflexivity].
      exfalso. apply Hnotin. apply same_key_iff_key in E.
      rewrite key_refresh in E. apply same_key_iff_key in Hs.
      apply in_map_iff. exists m'. split; [|exact Hm'].
      unfold n_key. congruence.
  - apply IH; [exact Hnd'|exact Hin|].
    rewrite (same_key_by_key _ r n (key_refresh m r)). exact Hs.
Qed.

(** *** Further properties of generation *)

(** X1.  The slots of one pass of the date loop come back to back, in
    every time zone and for every offset: of two slots that follow each
    other in a pass, which lie on one date, the second starts at the very
    time text the first ends with.  In a zone that keeps one offset the
    same holds in the whole list generated for a court, for two slots that
    follow each other and lie on the same date. *)
Theorem slots_of_a_date_are_back_to_back (LocalTZA : TimeZone)
    (courtName : string) (offset_minutes : Z) :
  (forall t i a b,
      nth_error (slots_of_day LocalTZA courtName offset_minutes t) i
      = Some a ->
      nth_error (slots_of_day LocalTZA courtName offset_minutes t) (S i)
      = Some b ->
      n_slot_date a = n_slot_date b /\ n_end_time a = n_start_time b) /\
  (forall offset startDate endDate i a b,
      (forall t b, LocalTZA t b = offset) ->
      nth_error (generateSlotsForCourt LocalTZA courtName offset_minutes
                   startDate endDate) i = Some a ->
      nth_error (generateSlotsForCourt LocalTZA courtName offset_minutes
                   startDate endDate) (S i) = Some b ->
      n_slot_date a = n_slot_date b ->
      n_end_time a = n_start_time b).
Proof.
  split.
  - intros t i a b. apply slots_of_day_adjacent.
  - intros offset startDate endDate i a b Hone.
    rewrite generateSlotsForCourt_visited. apply flat_map_adjacent.
    now apply (visited_one_offset_sorted LocalTZA offset).
Qed.

Lemma slots_of_a_date_are_back_to_back_witness :
  let l := generateSlotsForCourt UTC_zone "Court B" 30 19725 19726 in
  (forall t b, UTC_zone t b = 0) /\
  nth_error l 3 = Some (mkNewSlot "Court B" 19725 "12:00:00" "13:30:00" 4000) /\
  nth_error l 4 = Some (mkNewSlot "Court B" 19725 "13:30:00" "15:00:00" 4000) /\
  n_end_time (mkNewSlot "Court B" 19725 "12:00:00" "13:30:00" 4000)
  = n_start_time (mkNewSlot "Court B" 19725 "13:30:00" "15:00:00" 4000).
Proof.
  cbv zeta. split; [reflexivity|]. split; [reflexivity|].
  split; [reflexivity|].
  apply (proj2 (slots_of_a_date_are_back_to_back UTC_zone "Court B" 30)
           0 19725 19726 3%nat);
    reflexivity.
Defined.

(** X2.  The number of slots the handler reports is the number of passes
    of the date loop times the slots of a pass of each court, whatever the
    table holds: a court gets one slot for each of the eleven loop values
    whose start lies before 23:00, which is eleven with an offset below 60
    and ten with an offset from 60 to 149.  In a zone that keeps one offset
    the passes are the days of the range; a range that ends before it
    starts has no day. *)
Theorem slotsCreated_counts_the_payload (LocalTZA : TimeZone)
    (courts : list (string * Z))
    (upsert_error : bool) (db : DB) (startDate endDate : Z) (n : nat) :
  snd (POST LocalTZA (Some courts) upsert_error db startDate endDate)
  = Created n ->
  let per_day := fun off => Z.max 0 (Z.min 11 ((960 - off + 89) / 90)) in
  Z.of_nat n
  = Z.of_nat (List.length (visited LocalTZA startDate endDate))
    * fold_right Z.add 0 (map (fun c => per_day (snd c)) courts) /\
  (forall offset,
      (forall t b, LocalTZA t b = offset) ->
      Z.of_nat n
      = Z.max 0 (endDate - startDate + 1)
        * fold_right Z.add 0 (map (fun c => per_day (snd c)) courts)) /\
  (forall off, off < 60 -> per_day off = 11) /\
  (forall off, 60 <= off < 150 -> per_day off = 10).
Proof.
  unfold POST. destruct upsert_error; [discriminate|]. cbn [snd].
  intros [= <-]. cbv zeta.
  split; [apply all_slots_length|].
  split; [|split; intros off Hoff; div_lia].
  intros offset Hone.
  rewrite all_slots_length, (visited_one_offset_length _ offset) by exact Hone.
  reflexivity.
Qed.

Lemma slotsCreated_counts_the_payload_witness :
  snd (POST UTC_zone (Some [("Court A", 0); ("Court B", 30); ("Court C", 60)])
            false Scenario.store 19725 19731) = Created 224 /\
  (forall t b, UTC_zone t b = 0) /\
  Z.of_nat 224 = Z.max 0 (19731 - 19725 + 1) * (11 + 11 + 10).
Proof.
  assert (H : snd (POST UTC_zone
                        (Some [("Court A", 0); ("Court B", 30); ("Court C", 60)])
                        false Scenario.store 19725 19731) = Created 224)
    by (vm_compute; reflexivity).
  split; [exact H|]. split; [reflexivity|].
  exact (proj1 (proj2 (slotsCreated_counts_the_payload _ _ _ _ _ _ _ H))
           0 (fun t b => eq_refl)).
Defined.

(** X3.  With an offset from 0 to 30 every generated slot lies within its
    date: it starts at 07:00 or later and ends by 24:00.  With an offset
    above 30 and below 60 the last slot of every pass of the date loop
    starts before 23:00 and ends after midnight, with an end text of hour
    24 and a minute that is not zero; in a zone that keeps one offset there
    is such a slot on every date of the range. *)
Theorem end_of_the_last_slot (LocalTZA : TimeZone) (courtName : string)
    (offset_minutes startDate endDate : Z) :
  (0 <= offset_minutes <= 30 ->
   forall s,
     In s (generateSlotsForCourt LocalTZA courtName offset_minutes
             startDate endDate) ->
     exists a b,
       interval s = Some (a, b) /\
       n_slot_date s * 1440 + 420 <= a /\ b <= (n_slot_date s + 1) * 1440) /\
  (30 < offset_minutes < 60 ->
   forall t, In t (visited LocalTZA startDate endDate) ->
     exists s a b,
       In s (generateSlotsForCourt LocalTZA courtName offset_minutes
               startDate endDate) /\
       n_slot_date s = Day t /\
       n_end_time s = time_text 24 (offset_minutes - 30) /\
       interval s = Some (a, b) /\
       a < Day t * 1440 + 1380 /\ (Day t + 1) * 1440 < b) /\
  (30 < offset_minutes < 60 ->
   forall offset, (forall t b, LocalTZA t b = offset) ->
   forall d, startDate <= d <= endDate ->
     exists s a b,
       In s (generateSlotsForCourt LocalTZA courtName offset_minutes
               startDate endDate) /\
       n_slot_date s = d /\
       n_end_time s = time_text 24 (offset_minutes - 30) /\
       interval s = Some (a, b) /\
       a < d * 1440 + 1380 /\ (d + 1) * 1440 < b).
Proof.
  assert (Hpass : 30 < offset_minutes < 60 ->
    forall t, In t (visited LocalTZA startDate endDate) ->
    exists s a b,
      In s (generateSlotsForCourt LocalTZA courtName offset_minutes
              startDate endDate) /\
      n_slot_date s = Day t /\
      n_end_time s = time_text 24 (offset_minutes - 30) /\
      interval s = Some (a, b) /\
      a < Day t * 1440 + 1380 /\ (Day t + 1) * 1440 < b).
  { intros Hoff t Ht.
    set (s := slot_at courtName offset_minutes (Day t)
                (if (getDay LocalTZA t =? 0) || (getDay LocalTZA t =? 6)
                 then 65 else 40)
                (14 + 3 * 10)).
    assert (Hin : In s (generateSlotsForCourt LocalTZA courtName
                          offset_minutes startDate endDate)).
    { apply generateSlotsForCourt_In. exists t. split; [exact Ht|].
      apply slots_of_day_In. exists 10. repeat split; lia. }
    exists s. eexists _, _. split; [exact Hin|]. split; [reflexivity|].
    split; [|split].
    + unfold s, slot_at. cbn [n_end_time].
      rewrite Z.rem_mod_nonneg by lia. f_equal; div_lia.
    + unfold s. apply interval_slot_at; [lia|div_lia].
    + lia. }
  split; [|split].
  - intros Hoff s Hin.
    apply generated_interval in Hin; [|lia].
    destruct Hin as (t & k & _ & _ & Hk & _ & _ & _ & Hi).
    eexists _, _. split; [exact Hi|]. lia.
  - exact Hpass.
  - intros Hoff offset Hone d Hd.
    destruct (Hpass Hoff (midnight d)) as (s & a & b & H).
    + apply (visited_one_offset_In LocalTZA offset Hone). eauto.
    + rewrite Day_midnight in H. eauto.
Qed.

Lemma end_of_the_last_slot_witness :
  30 < 45 < 60 /\ (forall t b, UTC_zone t b = 0) /\
  19725 <= 19725 <= 19725 /\
  exists s a b,
    In s (generateSlotsForCourt UTC_zone "Court B" 45 19725 19725) /\
    n_slot_date s = 19725 /\
    n_end_time s = "24:15:00" /\
    interval s = Some (a, b) /\
    a < 19725 * 1440 + 1380 /\ (19725 + 1) * 1440 < b.
Proof.
  split; [lia|]. split; [reflexivity|]. split; [lia|].
  apply (fun H => proj2 (proj2 (end_of_the_last_slot UTC_zone "Court B" 45
                                  19725 19725)) H 0 (fun t b => eq_refl));
    lia.
Defined.

(** X4.  With no court configuration, with no court in it, or with a range
    that ends before it starts there is nothing to generate, in every time
    zone: the handler answers with success and zero slots and leaves the
    store as it was. *)
Theorem nothing_to_generate (LocalTZA : TimeZone)
    (courtConfig : option (list (string * Z)))
    (db : DB) (startDate endDate : Z) :
  courtConfig = None \/ courtConfig = Some [] \/ endDate < startDate ->
  POST LocalTZA courtConfig false db startDate endDate = (db, Created 0).
Proof.
  intros H. unfold POST.
  assert (E : all_slots LocalTZA
                (match courtConfig with Some c => c | None => [] end)
                startDate endDate = []).
  { destruct H as [->|[->|Hlt]]; [reflexivity|reflexivity|].
    destruct courtConfig as [courts|]; [|reflexivity].
    induction courts as [|[n off] cs IH]; [reflexivity|].
    cbn [all_slots flat_map fst snd].
    rewrite generateSlotsForCourt_visited, visited_empty by exact Hlt.
    exact IH. }
  rewrite E. cbn [upsert fold_left List.length]. now destruct db.
Qed.

Lemma nothing_to_generate_witness :
  19725 < 19731 /\
  POST UTC_zone (Some [("Court A", 0)]) false Scenario.store 19731 19725
  = (Scenario.store, Created 0).
Proof.
  split; [lia|]. apply nothing_to_generate. right. right. lia.
Defined.

(** X5.  In a zone that keeps one offset, with distinct court names and
    offsets from 0 to 30, the payload names no key twice and only times
    within the date, up to 24:00.  When none of its keys is stored yet and
    the store reports no error for the upsert, the run appends exactly the
    payload to the table: one row for each generated slot, in order, with
    the generated court, date, times and base price, marked available and
    with the current price equal to the base price; the stored rows and
    the bookings stay as they are. *)
Theorem first_generation_stores_the_payload (LocalTZA : TimeZone)
    (offset : Z) (courts : list (string * Z))
    (db : DB) (startDate endDate : Z) :
  (forall t b, LocalTZA t b = offset) ->
  NoDup (map fst courts) -> Forall (fun c => 0 <= snd c <= 30) courts ->
  (forall n, In n (all_slots LocalTZA courts startDate endDate) ->
             existsb (fun r => same_key r n) (available_slots db) = false) ->
  NoDup (map n_key (all_slots LocalTZA courts startDate endDate)) /\
  Forall (fun n => exists a b,
              interval n = Some (a, b) /\
              n_slot_date n * 1440 + 420 <= a /\
              b <= (n_slot_date n + 1) * 1440)
         (all_slots LocalTZA courts startDate endDate) /\
  exists added,
    fst (POST LocalTZA (Some courts) false db startDate endDate)
    = mkDB (available_slots db ++ added) (bookings db) /\
    map payload_of added = all_slots LocalTZA courts startDate endDate /\
    snd (POST LocalTZA (Some courts) false db startDate endDate)
    = Created (List.length added) /\
    Forall (fun r => is_available r = true /\
                     current_price_cents r = base_price_cents r) added.
Proof.
  intros Hone Hnd Hoff Hnew.
  pose proof (all_slots_keys LocalTZA offset courts startDate endDate
                Hone Hnd (Forall_offsets _ Hoff)) as Hkeys.
  split; [exact Hkeys|].
  split; [now apply all_slots_within_the_date|].
  unfold POST. cbn [fst snd].
  destruct (upsert_new_keys (all_slots LocalTZA courts startDate endDate)
              (available_slots db) Hkeys Hnew)
    as (added & E & Hp & Hav).
  exists added. rewrite E. repeat split; [exact Hp| |exact Hav].
  now rewrite <- Hp, length_map.
Qed.

Lemma first_generation_stores_the_payload_witness :
  (forall t b, UTC_zone t b = 0) /\
  exists added,
    fst (POST UTC_zone (Some [("Court A", 0); ("Court B", 30)]) false
              (mkDB [] []) 19725 19726)
    = mkDB ([] ++ added) [] /\
    List.length added = 44%nat.
Proof.
  split; [reflexivity|].
  destruct (first_generation_stores_the_payload UTC_zone 0
              [("Court A", 0); ("Court B", 30)] (mkDB [] []) 19725 19726)
    as (_ & _ & added & E & Hp & _ & _).
  - reflexivity.
  - cbn [map fst]. repeat constructor; cbn [In]; intuition discriminate.
  - repeat constructor; cbn [snd]; lia.
  - reflexivity.
  - exists added. split; [exact E|].
    rewrite <- (length_map payload_of), Hp. reflexivity.
Defined.

(** X6.  In a zone that keeps one offset, with distinct court names and
    offsets from 0 to 30, whatever the table held: after a generation run
    for whose upsert the store reports no error, every generated slot can
    be looked up.  The table has a row with its court, date and start
    time, and that row carries the generated end time and base price. *)
Theorem every_generated_slot_is_stored (LocalTZA : TimeZone) (offset : Z)
    (courts : list (string * Z)) (db : DB)
    (startDate endDate : Z) (n : NewSlot) :
  (forall t b, LocalTZA t b = offset) ->
  NoDup (map fst courts) -> Forall (fun c => 0 <= snd c <= 30) courts ->
  In n (all_slots LocalTZA courts startDate endDate) ->
  exists r,
    In r (available_slots
            (fst (POST LocalTZA (Some courts) false db startDate endDate)))
    /\ payload_of r = n.
Proof.
  intros Hone Hnd Hoff Hin. unfold POST. cbn [fst available_slots].
  pose proof (all_slots_keys LocalTZA offset courts startDate endDate
                Hone Hnd (Forall_offsets _ Hoff)) as Hkeys.
  set (rows := all_slots LocalTZA courts startDate endDate) in *.
  pose proof (upsert_stores rows (available_slots db)) as Hst.
  rewrite Forall_forall in Hst. specialize (Hst n Hin).
  apply existsb_exists in Hst. destruct Hst as (r & Hr & Hs).
  exists r. split; [exact Hr|].
  rewrite <- (upsert_settled rows _ r Hr).
  apply refresh_all_payload; [exact Hkeys|exact Hin|exact Hs].
Qed.

Lemma every_generated_slot_is_stored_witness :
  (forall t b, UTC_zone t b = 0) /\
  exists r,
    In r (available_slots
            (fst (POST UTC_zone (Some [("Court A", 0)]) false
                       (mkDB [mkSlot 1 "Court A" 19725 "07:00:00" "08:00:00"
                                     3000 3500 false] [])
                       19725 19725)))
    /\ payload_of r = mkNewSlot "Court A" 19725 "07:00:00" "08:30:00" 4000.
Proof.
  split; [reflexivity|].
  apply (every_generated_slot_is_stored UTC_zone 0 [("Court A", 0)]).
  - reflexivity.
  - cbn [map fst]. repeat constructor. intros [].
  - repeat constructor; cbn [snd]; lia.
  - now left.
Defined.

(** X22.  In a zone that keeps one offset, in the slots of one generation
    run no two slots of the same court have overlapping half-open
    intervals, whatever the offsets of the courts, the court names being
    distinct; and with offsets that are not negative every slot does have
    an interval, of ninety minutes. *)
Theorem no_overlap_while_the_clock_keeps_its_offset (LocalTZA : TimeZone)
    (offset : Z) (courts : list (string * Z)) (startDate endDate : Z) :
  (forall t b, LocalTZA t b = offset) ->
  NoDup (map fst courts) ->
  ForallOrdPairs
    (fun a b => n_court_name a = n_court_name b -> ~ overlap a b)
    (all_slots LocalTZA courts startDate endDate) /\
  (Forall (fun c => 0 <= snd c) courts ->
   Forall (fun s => exists a, interval s = Some (a, a + 90))
          (all_slots LocalTZA courts startDate endDate)).
Proof.
  intros Hone Hnd. split.
  - now apply (all_slots_no_overlap LocalTZA offset).
  - intros Hpos. apply Forall_forall. intros s Hs.
    unfold all_slots in Hs. apply in_flat_map in Hs.
    destruct Hs as ([n off] & Hc & Hs). cbn [fst snd] in Hs.
    rewrite Forall_forall in Hpos. specialize (Hpos _ Hc). cbn [snd] in Hpos.
    apply generated_interval in Hs; [|exact Hpos].
    destruct Hs as (t & k & _ & _ & _ & _ & _ & _ & Hi).
    eexists. exact Hi.
Qed.

Lemma no_overlap_while_the_clock_keeps_its_offset_witness :
  (forall t b, fixed_zone 120 t b = 120) /\
  NoDup (map fst [("Court A", 0); ("Court B", 30)]) /\
  ForallOrdPairs
    (fun a b => n_court_name a = n_court_name b -> ~ overlap a b)
    (all_slots (fixed_zone 120) [("Court A", 0); ("Court B", 30)]
               19725 19731).
Proof.
  assert (Hnd : NoDup (map fst [("Court A", 0); ("Court B", 30)])).
  { cbn [map fst]. repeat constructor; cbn [In]; intuition discriminate. }
  split; [reflexivity|]. split; [exact Hnd|].
  apply (proj1 (no_overlap_while_the_clock_keeps_its_offset
                  (fixed_zone 120) 120 _ 19725 19731
                  (fun t b => eq_refl) Hnd)).
Defined.

(** X23.  West of UTC the price follows the weekday before the date of the
    slot.  With the clock behind UTC by one offset of up to a day, a slot
    costs 6500 cents when the day before its date is a Saturday or a
    Sunday and 4000 cents otherwise: the slots dated a Saturday cost 4000,
    the Friday price, and the slots dated a Monday cost 6500, the Sunday
    price. *)
Theorem west_of_UTC_the_price_is_of_the_day_before (offset : Z)
    (courtName : string) (offset_minutes startDate endDate : Z)
    (s : NewSlot) :
  -1440 <= offset < 0 ->
  In s (generateSlotsForCourt (fixed_zone offset) courtName offset_minutes
          startDate endDate) ->
  n_base_price_cents s
  = (if ((n_slot_date s - 1 + 4) mod 7 =? 0)
        || ((n_slot_date s - 1 + 4) mod 7 =? 6)
     then 6500 else 4000) /\
  ((n_slot_date s + 4) mod 7 = 6 -> n_base_price_cents s = 4000) /\
  ((n_slot_date s + 4) mod 7 = 1 -> n_base_price_cents s = 6500).
Proof.
  intros Hoff Hin.
  apply (generateSlotsForCourt_one_offset_In (fixed_zone offset) _ _ offset)
    in Hin; [|reflexivity].
  destruct Hin as (d & k & _ & _ & _ & ->).
  cbn [slot_at n_base_price_cents n_slot_date].
  replace (offset / 1440) with (-1) by div_lia.
  replace (d + -1 + 4) with (d - 1 + 4) by lia.
  set (w := (d - 1 + 4) mod 7).
  assert (Hw : w = (d + 4 + 6) mod 7) by (unfold w; div_lia).
  split; [|split].
  - destruct ((w =? 0) || (w =? 6)); reflexivity.
  - intros Hsat.
    destruct (Z.eqb_spec w 0); [div_lia|].
    destruct (Z.eqb_spec w 6); [div_lia|]. reflexivity.
  - intros Hmon.
    destruct (Z.eqb_spec w 0); [reflexivity|]. div_lia.
Qed.

Lemma west_of_UTC_the_price_is_of_the_day_before_witness :
  -1440 <= -300 < 0 /\
  In (mkNewSlot "Court A" 19728 "07:00:00" "08:30:00" 4000)
     (generateSlotsForCourt (fixed_zone (-300)) "Court A" 0 19728 19730) /\
  (19728 + 4) mod 7 = 6 /\
  n_base_price_cents (mkNewSlot "Court A" 19728 "07:00:00" "08:30:00" 4000)
  = 4000.
Proof.
  assert (Hin : In (mkNewSlot "Court A" 19728 "07:00:00" "08:30:00" 4000)
            (generateSlotsForCourt (fixed_zone (-300)) "Court A" 0
               19728 19730)).
  { vm_compute. left. reflexivity. }
  split; [lia|]. split; [exact Hin|]. split; [reflexivity|].
  refine (proj1 (proj2 (west_of_UTC_the_price_is_of_the_day_before
                          (-300) "Court A" 0 19728 19730 _ _ Hin)) _);
    [lia|reflexivity].
Defined.

(** X24.  When the clock goes back within the range the last date is left
    out.  In the zone of Tallinn, for the range from 2024-10-26 (day
    20022) to 2024-10-28 (day 20024), the date loop visits the UTC
    midnights of 10-26 and 10-27 and then 01:00 UTC of 10-28, which is
    past the end of the range: the run has the slots of two dates and none
    dated 2024-10-28. *)
Theorem last_date_is_left_out_when_the_clock_goes_back :
  let slots := generateSlotsForCourt Tallinn_2024 "Court A" 0 20022 20024 in
  visited Tallinn_2024 20022 20024 = [midnight 20022; midnight 20023] /\
  next_day Tallinn_2024 (midnight 20023) = midnight 20024 + 60 /\
  List.length slots = 22%nat /\
  (forall s, In s slots -> n_slot_date s = 20022 \/ n_slot_date s = 20023).
Proof.
  cbv zeta. split; [vm_compute; reflexivity|].
  split; [vm_compute; reflexivity|].
  split; [vm_compute; reflexivity|].
  intros s Hs. vm_compute in Hs.
  repeat (destruct Hs as [<-|Hs];
          [first [left; reflexivity|right; reflexivity]|]).
  contradiction.
Qed.

End MoreSlotGenFacts.

(** ** More on reservations and notifications *)

Section MoreBookingFacts.

Import StripeWebhook CreateBooking.

(** *** Store lemmas *)

Lemma existsb_false_filter {A} (f : A -> bool) (l : list A) :
  existsb f l = false -> filter f l = [].
Proof.
  induction l as [|a l IH]; [reflexivity|]. cbn [existsb filter].
  destruct (f a); [discriminate|]. exact IH.
Qed.

(** The columns of a slot other than its availability. *)
Local Abbreviation columns :=
  (fun s : Slot => (id s, court_name s, slot_date s, start_time s, end_time s,
                    base_price_cents s, current_price_cents s)).

Lemma set_available_columns (v : bool) (i : Id) (t : list Slot) :
  map columns (set_available v i t) = map columns t.
Proof.
  unfold set_available. rewrite map_map. apply map_ext. intros s.
  now destruct (id s =? i).
Qed.

Lemma set_available_other (v : bool) (i : Id) (t : list Slot) (s : Slot) :
  id s <> i -> In s (set_available v i t) <-> In s t.
Proof.
  intros Hne. unfold set_available. rewrite in_map_iff. split.
  - intros (r & Hr & Hin). destruct (Z.eqb_spec (id r) i) as [He|_].
    + subst s. cbn [id] in Hne. contradiction.
    + now subst.
  - intros Hin. exists s. split; [|exact Hin].
    now destruct (Z.eqb_spec (id s) i).
Qed.

Lemma set_unavailable_available (i : Id) (t : list Slot) (s : Slot) :
  In s (set_available false i t) -> is_available s = true -> In s t.
Proof.
  unfold set_available. rewrite in_map_iff. intros (r & Hr & Hin) Hav.
  destruct (id r =? i); subst s; [discriminate|exact Hin].
Qed.

(** With identifiers that are a key, the row of an identifier is one. *)
Lemma row_of_id (t : list Slot) (a b : Slot) :
  NoDup (map id t) -> In a t -> In b t -> id a = id b -> a = b.
Proof.
  induction t as [|r t IH]; cbn [map In]; [tauto|].
  intros Hnd Ha Hb Hid. inversion Hnd as [|? ? Hnotin Hnd']; subst.
  destruct Ha as [->|Ha], Hb as [->|Hb]; [reflexivity| | |now apply IH].
  - exfalso. apply Hnotin. rewrite Hid. now apply in_map.
  - exfalso. apply Hnotin. rewrite <- Hid. now apply in_map.
Qed.

(** Marking the one available row of an identifier unavailable and then
    available gives the table back. *)
Lemma release_after_hold (t : list Slot) (slot : Slot) :
  NoDup (map id t) -> In slot t -> is_available slot = true ->
  set_available true (id slot) (set_available false (id slot) t) = t.
Proof.
  intros Hnd Hin Hav. unfold set_available. rewrite map_map.
  rewrite <- (map_id t) at 2. apply map_ext_in. intros s Hs.
  destruct (Z.eqb_spec (id s) (id slot)) as [He|Hne]; cbn [id].
  - rewrite He, Z.eqb_refl.
    assert (s = slot) by (now apply (row_of_id t)). subst s.
    destruct slot; cbn in *. now subst.
  - destruct (Z.eqb_spec (id s) (id slot)); [contradiction|reflexivity].
Qed.

Lemma reference_free (db : DB) (ref : string) :
  reference_taken db ref = false ->
  filter (has_reference ref) (bookings db) = [] /\
  filter (fun b => negb (has_reference ref b)) (bookings db) = bookings db /\
  confirm ref (bookings db) = bookings db.
Proof.
  unfold reference_taken, has_reference, confirm.
  induction (bookings db) as [|b bs IH]; [intros _; repeat split|].
  cbn [existsb filter map]. intros H. apply orb_false_iff in H.
  destruct H as [Hb Hbs]. rewrite Hb. cbn [negb].
  destruct (IH Hbs) as (E1 & E2 & E3).
  change (has_reference ref b) with (String.eqb (stripe_payment_intent_id b) ref).
  rewrite Hb. repeat split; [exact E1| |]; f_equal; assumption.
Qed.

(** *** Further properties of a reservation *)

(** X7.  A reservation for a slot that no stored row marks available - it
    is taken, or there is no such slot - or whose lookup fails is turned
    away with "Slot not available" after the lookup alone: no payment
    request is issued and nothing is written. *)
Theorem unavailable_slot_is_turned_away (h : Handler) (req : Request)
    (o : Outcomes) (db : DB) :
  marked_available db (slotId req) = false \/ select_error o = true ->
  create_booking h req o db
  = (db, Some SlotNotAvailable, [(db, SelectSlot (slotId req))]).
Proof.
  intros H. rewrite create_booking_unfold. cbv zeta.
  destruct (select_error o); [reflexivity|].
  destruct H as [H|H]; [|discriminate].
  unfold marked_available in H. unfold select_available.
  now rewrite (existsb_false_filter _ _ H).
Qed.

Lemma unavailable_slot_is_turned_away_witness :
  marked_available Scenario.sold_store 1 = false /\
  create_booking edge_function Scenario.bob (Scenario.all_fine "cs_bob")
                 Scenario.sold_store
  = (Scenario.sold_store, Some SlotNotAvailable,
     [(Scenario.sold_store, SelectSlot 1)]).
Proof.
  split; [reflexivity|].
  apply (unavailable_slot_is_turned_away edge_function Scenario.bob).
  left. reflexivity.
Defined.

(** X8.  Whatever its outcome, a reservation only adds: the stored bookings
    stay, followed by at most one new one; every slot row keeps all its
    columns but the availability; rows of other slots stay as they are; and
    a row that is available afterwards was available before, so a
    reservation never puts a slot back on offer. *)
Theorem reservation_only_holds_its_slot (h : Handler) (req : Request)
    (o : Outcomes) (db : DB) :
  let db' := final_db (create_booking h req o db) in
  (exists added, bookings db' = bookings db ++ added /\
                 (List.length added <= 1)%nat) /\
  map (fun s => (id s, court_name s, slot_date s, start_time s, end_time s,
                 base_price_cents s, current_price_cents s))
      (available_slots db')
  = map (fun s => (id s, court_name s, slot_date s, start_time s, end_time s,
                   base_price_cents s, current_price_cents s))
        (available_slots db) /\
  (forall s, id s <> slotId req ->
             (In s (available_slots db') <-> In s (available_slots db))) /\
  (forall s, In s (available_slots db') -> is_available s = true ->
             In s (available_slots db)).
Proof.
  cbv zeta. rewrite create_booking_unfold. cbv zeta.
  assert (Hsame : forall bs : list Booking,
             (exists added, bs = bs ++ added /\ (List.length added <= 1)%nat))
    by (intros bs; exists []; rewrite app_nil_r; split; [reflexivity|cbn; lia]).
  destruct (if select_error o then None else _) as [slot|];
    [|cbn [final_db fst]; repeat split; auto].
  destruct (gateway o) as [session|];
    [|cbn [final_db fst]; repeat split; auto].
  destruct (insert_error o || _);
    [cbn [final_db fst]; repeat split; auto|].
  destruct (update_error o); cbn [final_db fst available_slots bookings].
  - repeat split; auto. eexists. split; [reflexivity|cbn; lia].
  - split; [eexists; split; [reflexivity|cbn; lia]|].
    split; [apply set_available_columns|].
    split; [intros s Hs; now apply set_available_other|].
    intros s. apply set_unavailable_available.
Qed.

Lemma reservation_only_holds_its_slot_witness :
  In Scenario.morning_slot
     (available_slots
        (final_db (create_booking edge_function
                     (mkRequest 2 "Bob" "bob@example.com" "222")
                     (Scenario.all_fine "cs_bob") Scenario.store))).
Proof.
  apply (proj1 (proj2 (proj2 (reservation_only_holds_its_slot edge_function
                  (mkRequest 2 "Bob" "bob@example.com" "222")
                  (Scenario.all_fine "cs_bob") Scenario.store)))
               Scenario.morning_slot).
  - discriminate.
  - now left.
Defined.

(** X9.  An expired notification undoes the reservation it belongs to: when
    the slot identifiers are a key of the table, a reservation succeeded
    with its update in effect, and the expired notification for its session
    is handled with all three store calls in effect, the store is again
    what it was before the reservation. *)
Theorem expiry_undoes_the_reservation (h : Handler) (req : Request)
    (o : CreateBooking.Outcomes) (db : DB) (session : Session)
    (wo : StripeWebhook.Outcomes) (ev : Event) :
  NoDup (map id (available_slots db)) ->
  succeeded (response (create_booking h req o db)) = true ->
  gateway o = Some session -> update_error o = false ->
  type ev = "checkout.session.expired" -> object_id ev = session_id session ->
  lookup_error wo = false -> delete_error wo = false ->
  release_error wo = false ->
  handle_event wo (final_db (create_booking h req o db)) ev = db.
Proof.
  intros Hnd Hok Hg Hu Ht Href Hl Hd Hr.
  rewrite create_booking_unfold in *. cbv zeta in *. rewrite Hg, Hu in *.
  destruct (select_error o); [discriminate|].
  destruct (single (select_available db (slotId req))) as [slot|] eqn:Esel;
    [|discriminate].
  destruct (insert_error o); [discriminate|]. cbn [orb] in *.
  destruct (reference_taken db (session_id session)) eqn:Eref; [discriminate|].
  cbn [final_db fst].
  apply single_select_available in Esel. destruct Esel as (Hin & Hid & Hav & _).
  destruct (reference_free db _ Eref) as (E1 & E2 & _).
  set (b := new_booking db req slot session).
  assert (Hb : has_reference (object_id ev) b = true).
  { unfold has_reference, b, new_booking. cbn. rewrite Href.
    apply String.eqb_refl. }
  rewrite (handle_expired wo _ ev b Ht Hl).
  - rewrite Hd, Hr. cbn [available_slots bookings].
    rewrite filter_app, Href, E2. cbn [filter]. rewrite <- Href, Hb.
    cbn [negb]. rewrite app_nil_r.
    replace (slot_id b) with (id slot) by (cbn; congruence).
    rewrite <- Hid, release_after_hold by assumption. now destruct db.
  - cbn [bookings]. rewrite filter_app, Href, E1. cbn [filter app].
    now rewrite <- Href, Hb.
Qed.

Lemma expiry_undoes_the_reservation_witness :
  handle_event (StripeWebhook.mkOutcomes false false false false)
    (final_db (create_booking edge_function Scenario.alice
                 (Scenario.all_fine "cs_alice") Scenario.store))
    (mkEvent "checkout.session.expired" "cs_alice")
  = Scenario.store.
Proof.
  apply (expiry_undoes_the_reservation edge_function Scenario.alice
           (Scenario.all_fine "cs_alice") Scenario.store
           (mkSession "cs_alice" "https://pay"));
    try reflexivity.
  repeat constructor. intros [].
Defined.

(** X10.  A completed notification confirms the reservation it belongs to:
    after a successful reservation with its update in effect and the
    completed notification for its session with its update in effect, the
    store holds the earlier bookings unchanged followed by the new booking,
    confirmed, with the base price of the slot as the amount paid, and the
    slot is not marked available. *)
Theorem payment_confirms_the_reservation (h : Handler) (req : Request)
    (o : CreateBooking.Outcomes) (db : DB) (session : Session)
    (wo : StripeWebhook.Outcomes) (ev : Event) :
  succeeded (response (create_booking h req o db)) = true ->
  gateway o = Some session -> update_error o = false ->
  type ev = "checkout.session.completed" -> object_id ev = session_id session ->
  confirm_error wo = false ->
  exists slot,
    single (select_available db (slotId req)) = Some slot /\
    handle_event wo (final_db (create_booking h req o db)) ev
    = mkDB (set_available false (slotId req) (available_slots db))
           (bookings db ++ [as_confirmed (new_booking db req slot session)]) /\
    amount_paid_cents (as_confirmed (new_booking db req slot session))
    = base_price_cents slot /\
    marked_available
      (handle_event wo (final_db (create_booking h req o db)) ev) (slotId req)
    = false.
Proof.
  intros Hok Hg Hu Ht Href Hc.
  rewrite create_booking_unfold in *. cbv zeta in *. rewrite Hg, Hu in *.
  destruct (select_error o); [discriminate|].
  destruct (single (select_available db (slotId req))) as [slot|] eqn:Esel;
    [|discriminate].
  destruct (insert_error o); [discriminate|]. cbn [orb] in *.
  destruct (reference_taken db (session_id session)) eqn:Eref; [discriminate|].
  cbn [final_db fst]. exists slot. split; [reflexivity|].
  destruct (reference_free db _ Eref) as (_ & _ & E3).
  rewrite (handle_completed wo _ ev Ht), Hc. cbn [available_slots bookings].
  assert (E : confirm (object_id ev)
                (bookings db ++ [new_booking db req slot session])
              = bookings db ++ [as_confirmed (new_booking db req slot session)]).
  { unfold confirm in *. rewrite map_app, Href, E3. cbn [map].
    unfold has_reference, new_booking at 1. cbn [stripe_payment_intent_id].
    now rewrite String.eqb_refl. }
  rewrite E. split; [reflexivity|]. split; [reflexivity|].
  apply marked_after_set_unavailable.
Qed.

Lemma payment_confirms_the_reservation_witness :
  handle_event (StripeWebhook.mkOutcomes false false false false)
    (final_db (create_booking edge_function Scenario.alice
                 (Scenario.all_fine "cs_alice") Scenario.store))
    (mkEvent "checkout.session.completed" "cs_alice")
  = Scenario.sold_store.
Proof.
  destruct (payment_confirms_the_reservation edge_function Scenario.alice
              (Scenario.all_fine "cs_alice") Scenario.store
              (mkSession "cs_alice" "https://pay")
              (StripeWebhook.mkOutcomes false false false false)
              (mkEvent "checkout.session.completed" "cs_alice")
              eq_refl eq_refl eq_refl eq_refl eq_refl eq_refl)
    as (slot & Hsel & E & _).
  rewrite E. injection Hsel as <-. reflexivity.
Defined.

(** *** Reservations in flight together *)

(** The identifier and base price of every slot row: no call of a
    reservation changes them. *)
Local Abbreviation prices db :=
  (map (fun s : Slot => (id s, base_price_cents s)) (available_slots db)).

(** [b] is a pending booking of the request of [t], at a base price the
    slot had in [db0]. *)
Local Abbreviation books db0 b t :=
  (slot_id b = slotId (t_req t) /\
   customer_name b = customerName (t_req t) /\
   customer_email b = customerEmail (t_req t) /\
   customer_phone b = customerPhone (t_req t) /\
   status b = pending /\
   In (slot_id b, amount_paid_cents b) (prices db0)).

(** What an invocation in flight holds is backed by the store. *)
Local Abbreviation backed db0 db t :=
  (match t_pc t with
   | AtGateway slot | AtInsert slot _ =>
       In (slotId (t_req t), base_price_cents slot) (prices db0)
   | AtUpdate b _ => In b (bookings db) /\ books db0 b t
   | Done (Success bid _ _) =>
       exists b, In b (bookings db) /\ booking_id b = bid /\ books db0 b t
   | _ => True
   end).

Lemma backed_mono (db0 db db' : DB) (t : Thread) :
  incl (bookings db) (bookings db') -> backed db0 db t -> backed db0 db' t.
Proof.
  intros Hincl. destruct (t_pc t) as [|slot|slot session|b session|[]];
    try exact (fun H => H).
  - intros [Hin Hb]. split; [now apply Hincl|exact Hb].
  - intros (b & Hin & Hb). exists b. split; [now apply Hincl|exact Hb].
Qed.

Lemma marked_set_unavailable (j i : Id) (t : list Slot) (bs bs' : list Booking) :
  marked_available (mkDB (set_available false j t) bs) i = true ->
  marked_available (mkDB t bs') i = true.
Proof.
  unfold marked_available. cbn [available_slots]. rewrite !existsb_exists.
  intros (s & Hin & Hs). apply andb_true_iff in Hs. destruct Hs as [Hid Hav].
  apply set_unavailable_available in Hin; [|exact Hav].
  exists s. now rewrite Hid, Hav.
Qed.

(** One call of one invocation: prices stay, bookings stay, nothing
    becomes available, and the invocation is backed again. *)
Lemma step_backed (h : Handler) (db0 db : DB) (t : Thread) :
  prices db = prices db0 -> backed db0 db t ->
  let r := step h (t_req t) (t_outcomes t) db (t_pc t) in
  prices (fst r) = prices db0 /\
  incl (bookings db) (bookings (fst r)) /\
  (forall i, marked_available (fst r) i = true -> marked_available db i = true) /\
  backed db0 (fst r) (mkThread (t_req t) (t_outcomes t) (snd r)).
Proof.
  intros Hp Hb. cbv zeta. destruct t as [req o pc]. cbn [t_req t_outcomes t_pc] in *.
  destruct pc as [|slot|slot session|b session|r]; cbn [step].
  - destruct (if select_error o then None else _) as [slot|] eqn:E;
      cbn [fst snd t_pc t_req]; repeat split; auto using incl_refl.
    destruct (select_error o); [discriminate|].
    apply single_select_available in E. destruct E as (Hin & Hid & _ & _).
    rewrite <- Hp, <- Hid. apply in_map_iff. now exists slot.
  - destruct (gateway o); cbn [fst snd t_pc t_req];
      repeat split; auto using incl_refl.
  - destruct (insert_error o || _); cbn [fst snd t_pc t_req available_slots bookings];
      repeat split; auto using incl_refl.
    + apply incl_appl, incl_refl.
    + apply in_or_app. right. now left.
  - destruct Hb as [Hin Hb].
    assert (Hbody : backed db0 db (mkThread req o (Done (success_body h b session)))).
    { cbn [t_pc t_req]. destruct h; cbn [success_body]; exists b; auto. }
    destruct (update_error o); cbn [fst snd available_slots bookings].
    + split; [exact Hp|]. split; [apply incl_refl|]. split; [auto|exact Hbody].
    + split; [|split; [|split]].
      * rewrite <- Hp. clear. unfold set_available. rewrite map_map.
        apply map_ext. intros s. now destruct (id s =? slotId req).
      * apply incl_refl.
      * intros i Hi. destruct db as [ss bs]. cbn [available_slots bookings] in *.
        eapply marked_set_unavailable, Hi.
      * exact Hbody.
  - cbn [fst snd]. repeat split; auto using incl_refl.
Qed.

Lemma step_nth_backed (h : Handler) (db0 : DB) (ts : list Thread) (i : nat)
    (db : DB) :
  prices db = prices db0 -> Forall (fun t => backed db0 db t) ts ->
  let r := step_nth h db ts i in
  prices (fst r) = prices db0 /\
  incl (bookings db) (bookings (fst r)) /\
  (forall j, marked_available (fst r) j = true -> marked_available db j = true) /\
  Forall (fun t => backed db0 (fst r) t) (snd r).
Proof.
  revert i. induction ts as [|t ts IH]; intros i Hp Hts; cbv zeta.
  - destruct i; cbn [step_nth fst snd]; repeat split; auto using incl_refl.
  - inversion Hts as [|? ? Ht Hts']; subst.
    destruct i as [|i]; cbn [step_nth].
    + pose proof (step_backed h db0 db t Hp Ht) as H. cbv zeta in H.
      destruct (step h (t_req t) (t_outcomes t) db (t_pc t)) as [db' pc'].
      cbn [fst snd] in *. destruct H as (H1 & H2 & H3 & H4).
      repeat split; auto. constructor; [exact H4|].
      eapply Forall_impl; [|exact Hts']. intros t'. now apply backed_mono.
    + specialize (IH i Hp Hts'). cbv zeta in IH.
      destruct (step_nth h db ts i) as [db' ts']. cbn [fst snd] in *.
      destruct IH as (H1 & H2 & H3 & H4). repeat split; auto.
      constructor; [|exact H4]. now apply (backed_mono db0 db).
Qed.

Lemma interleave_backed (h : Handler) (db0 : DB) (schedule : list nat)
    (ts : list Thread) (db : DB) :
  prices db = prices db0 -> Forall (fun t => backed db0 db t) ts ->
  let r := interleave h db ts schedule in
  incl (bookings db) (bookings (fst r)) /\
  (forall j, marked_available (fst r) j = true -> marked_available db j = true) /\
  Forall (fun t => backed db0 (fst r) t) (snd r).
Proof.
  revert ts db. induction schedule as [|i schedule IH]; intros ts db Hp Hts;
    cbv zeta; cbn [interleave].
  - repeat split; auto using incl_refl.
  - pose proof (step_nth_backed h db0 ts i db Hp Hts) as H. cbv zeta in H.
    destruct (step_nth h db ts i) as [db' ts']. cbn [fst snd] in H.
    destruct H as (H1 & H2 & H3 & H4).
    specialize (IH ts' db' H1 H4). cbv zeta in IH.
    destruct IH as (I2 & I3 & I4). repeat split; auto.
    eapply incl_tran; eassumption.
Qed.

(** X11.  However the calls of reservations in flight are interleaved,
    every invocation that has answered with success is backed by a stored
    pending booking that carries the identifier it reported, the slot and
    the contact of its request, and as the amount the base price of a row
    of that slot; the bookings stored before are all still stored; and no
    slot that was not marked available has become so. *)
Theorem interleaved_successes_are_backed (h : Handler) (db : DB)
    (rs : list (Request * Outcomes)) (schedule : list nat) :
  let run := interleave h db (map start rs) schedule in
  (forall t bookingId secret sid,
      In t (snd run) -> t_pc t = Done (Success bookingId secret sid) ->
      exists b slot,
        In b (bookings (fst run)) /\ booking_id b = bookingId /\
        slot_id b = slotId (t_req t) /\
        customer_name b = customerName (t_req t) /\
        customer_email b = customerEmail (t_req t) /\
        customer_phone b = customerPhone (t_req t) /\
        status b = pending /\
        In slot (available_slots db) /\ id slot = slotId (t_req t) /\
        amount_paid_cents b = base_price_cents slot) /\
  (forall b, In b (bookings db) -> In b (bookings (fst run))) /\
  (forall i, marked_available (fst run) i = true -> marked_available db i = true).
Proof.
  cbv zeta.
  destruct (interleave_backed h db schedule (map start rs) db eq_refl)
    as (H1 & H2 & H3).
  { apply Forall_forall. intros t Ht. apply in_map_iff in Ht.
    destruct Ht as (r & <- & _). exact I. }
  split; [|split; [exact H1|exact H2]].
  intros t bid secret sid Hin Hpc. rewrite Forall_forall in H3.
  specialize (H3 t Hin). rewrite Hpc in H3.
  destruct H3 as (b & Hb & Hid & Hs & Hn & He & Hph & Hst & Hprice).
  apply in_map_iff in Hprice. destruct Hprice as (slot & Heq & Hslot).
  injection Heq as Hsid Hamount.
  exists b, slot. repeat split; auto; congruence.
Qed.

Lemma interleaved_successes_are_backed_witness :
  let run :=
    interleave edge_function Scenario.store
      (map start [(Scenario.alice, Scenario.all_fine "cs_alice");
                  (Scenario.bob, Scenario.all_fine "cs_bob")])
      [0; 1; 0; 1; 0; 1; 0; 1]%nat in
  exists b slot,
    In b (bookings (fst run)) /\ booking_id b = 2 /\
    customer_name b = "Bob" /\ status b = pending /\
    In slot (available_slots Scenario.store) /\
    amount_paid_cents b = base_price_cents slot.
Proof.
  cbv zeta.
  destruct (proj1 (interleaved_successes_are_backed edge_function Scenario.store
                     [(Scenario.alice, Scenario.all_fine "cs_alice");
                      (Scenario.bob, Scenario.all_fine "cs_bob")]
                     [0; 1; 0; 1; 0; 1; 0; 1]%nat)
                  (mkThread Scenario.bob (Scenario.all_fine "cs_bob")
                            (Done (Success 2 "https://pay" (Some "cs_bob"))))
                  2 "https://pay" (Some "cs_bob"))
    as (b & slot & Hb & Hid & _ & Hn & _ & _ & Hst & Hslot & _ & Ha).
  - vm_compute. right. left. reflexivity.
  - reflexivity.
  - exists b, slot. repeat split; assumption.
Defined.

(** *** Further properties of the webhook *)

(** X12.  A delivery that is not acknowledged with [received] changes
    nothing in the store.  It is refused as "signature missing" exactly
    when the signature header or the signing secret is absent or empty, and
    as "verification failed" exactly when both are there and the gateway
    library rejects the payload. *)
Theorem unverified_deliveries_change_nothing (endpointSecret : option string)
    (constructEvent : string -> string -> string -> option Event)
    (o : StripeWebhook.Outcomes) (db : DB) (req : Delivery) :
  let r := webhook endpointSecret constructEvent o db req in
  (snd r <> Received -> fst r = db) /\
  (snd r = SignatureMissing <->
   falsy (signature req) = true \/ falsy endpointSecret = true) /\
  (snd r = VerificationFailed <->
   exists sig secret,
     signature req = Some sig /\ endpointSecret = Some secret /\
     sig <> "" /\ secret <> "" /\
     constructEvent (body req) sig secret = None).
Proof.
  cbv zeta. unfold webhook, falsy.
  destruct (signature req) as [sig|], endpointSecret as [secret|];
    cbn [orb fst snd];
    try (repeat split; auto; try discriminate;
         intros (? & ? & ? & ? & _); discriminate).
  - destruct (String.eqb_spec sig ""), (String.eqb_spec secret "");
      cbn [orb fst snd];
      try (repeat split; auto; try discriminate;
           intros (? & ? & [= <-] & [= <-] & ? & ? & _); contradiction).
    destruct (constructEvent (body req) sig secret) eqn:E; cbn [fst snd].
    + split; [intros H; now contradiction H|].
      split; [split; [discriminate|intros [|]; discriminate]|].
      split; [discriminate|].
      intros (? & ? & [= <-] & [= <-] & _ & _ & E'). congruence.
    + split; [reflexivity|].
      split; [split; [discriminate|intros [|]; discriminate]|].
      split; [|reflexivity]. intros _. exists sig, secret. auto.
  - rewrite orb_true_r. cbn [fst snd].
    repeat split; auto; try discriminate.
    intros (? & ? & _ & ? & _). discriminate.
Qed.

Lemma handle_event_unreferenced (o : StripeWebhook.Outcomes) (db : DB)
    (ev : Event) :
  reference_taken db (object_id ev) = false -> handle_event o db ev = db.
Proof.
  intros H. unfold handle_event.
  destruct (reference_free db _ H) as (E1 & _ & E3). rewrite E1, E3.
  destruct (String.eqb (type ev) "checkout.session.completed").
  - destruct (confirm_error o); now destruct db.
  - destruct (String.eqb (type ev) "checkout.session.expired"); [|reflexivity].
    cbn [map single]. now destruct (lookup_error o).
Qed.

Lemma unverified_deliveries_change_nothing_witness :
  let r := webhook (Some "whsec") (fun _ _ _ => None)
                   (StripeWebhook.mkOutcomes false false false false)
                   Scenario.sold_store (mkDelivery (Some "t=1,v1=bad") "{}") in
  snd r <> Received /\ fst r = Scenario.sold_store.
Proof.
  cbv zeta.
  assert (H : snd (webhook (Some "whsec") (fun _ _ _ => None)
                     (StripeWebhook.mkOutcomes false false false false)
                     Scenario.sold_store (mkDelivery (Some "t=1,v1=bad") "{}"))
              <> Received) by discriminate.
  split; [exact H|].
  exact (proj1 (unverified_deliveries_change_nothing _ _ _ _ _) H).
Defined.

(** X13.  A verified notification whose payment reference no booking
    carries, or whose type is neither completed nor expired, leaves the
    store as it is, whatever the outcomes of the store calls. *)
Theorem unknown_notifications_are_ignored (o : StripeWebhook.Outcomes) (db : DB)
    (ev : Event) :
  reference_taken db (object_id ev) = false \/
  (type ev <> "checkout.session.completed" /\
   type ev <> "checkout.session.expired") ->
  handle_event o db ev = db.
Proof.
  intros [H|[Hc He]]; [now apply handle_event_unreferenced|].
  unfold handle_event.
  destruct (String.eqb_spec (type ev) "checkout.session.completed");
    [contradiction|].
  destruct (String.eqb_spec (type ev) "checkout.session.expired");
    [contradiction|reflexivity].
Qed.

Lemma unknown_notifications_are_ignored_witness :
  reference_taken Scenario.sold_store "cs_nobody" = false /\
  handle_event (StripeWebhook.mkOutcomes false false false false)
               Scenario.sold_store
               (mkEvent "checkout.session.expired" "cs_nobody")
  = Scenario.sold_store.
Proof.
  split; [reflexivity|].
  apply unknown_notifications_are_ignored. left. reflexivity.
Defined.

(** X14.  An expired notification can be delivered again: once a delivery
    has found the one booking of its reference and deleted it, a further
    delivery of the same notification changes nothing, whatever the
    outcomes of its store calls. *)
Theorem expired_again_changes_nothing (o1 o2 : StripeWebhook.Outcomes)
    (db : DB) (ev : Event) (b : Booking) :
  type ev = "checkout.session.expired" ->
  filter (has_reference (object_id ev)) (bookings db) = [b] ->
  lookup_error o1 = false -> delete_error o1 = false ->
  handle_event o2 (handle_event o1 db ev) ev = handle_event o1 db ev.
Proof.
  intros Ht Hone Hl Hd.
  apply handle_event_unreferenced.
  rewrite (handle_expired o1 db ev b Ht Hl Hone), Hd.
  unfold reference_taken. cbn [bookings].
  destruct (existsb _ _) eqn:E; [|reflexivity].
  apply existsb_exists in E. destruct E as (x & Hx & Hr).
  apply filter_In in Hx. destruct Hx as [_ Hx].
  unfold has_reference in Hx. now rewrite Hr in Hx.
Qed.

Lemma expired_again_changes_nothing_witness :
  let ok := StripeWebhook.mkOutcomes false false false false in
  let ev := mkEvent "checkout.session.expired" "cs_alice" in
  handle_event ok (handle_event ok Scenario.sold_store ev) ev
  = handle_event ok Scenario.sold_store ev.
Proof.
  cbv zeta.
  apply (expired_again_changes_nothing _ _ _ _ Scenario.paid_booking);
    reflexivity.
Defined.

(** X15.  An expired notification releases the slot of its booking without
    looking at the other bookings: a booking of another payment reference
    on the same slot, whatever its status, stays stored while the slot is
    marked available again. *)
Theorem expiry_releases_a_slot_that_is_still_booked
    (o : StripeWebhook.Outcomes) (db : DB) (ev : Event) (b other : Booking)
    (slot : Slot) :
  type ev = "checkout.session.expired" ->
  filter (has_reference (object_id ev)) (bookings db) = [b] ->
  lookup_error o = false -> release_error o = false ->
  In other (bookings db) -> has_reference (object_id ev) other = false ->
  slot_id other = slot_id b ->
  In slot (available_slots db) -> id slot = slot_id b ->
  In other (bookings (handle_event o db ev)) /\
  marked_available (handle_event o db ev) (slot_id other) = true.
Proof.
  intros Ht Hone Hl Hr Hother Href Hsame Hslot Hid.
  rewrite (handle_expired o db ev b Ht Hl Hone), Hr.
  cbn [bookings]. split.
  - destruct (delete_error o); [exact Hother|].
    apply filter_In. now rewrite Href.
  - unfold marked_available, set_available. cbn [available_slots].
    apply existsb_exists.
    exists (mkSlot (id slot) (court_name slot) (slot_date slot)
                   (start_time slot) (end_time slot) (base_price_cents slot)
                   (current_price_cents slot) true).
    split.
    + apply in_map_iff. exists slot. split; [|exact Hslot].
      now rewrite Hid, Z.eqb_refl.
    + cbn [id is_available]. rewrite Hsame, Hid, Z.eqb_refl. reflexivity.
Qed.

Lemma expiry_releases_a_slot_that_is_still_booked_witness :
  let ok := StripeWebhook.mkOutcomes false false false false in
  let ev := mkEvent "checkout.session.expired" "cs_bob" in
  let late := mkBooking 2 1 "Bob" "bob@example.com" "222" "cs_bob" 4000 pending in
  let db := mkDB (available_slots Scenario.sold_store)
                 [Scenario.paid_booking; late] in
  status Scenario.paid_booking = confirmed /\
  In Scenario.paid_booking (bookings (handle_event ok db ev)) /\
  marked_available (handle_event ok db ev) 1 = true.
Proof.
  cbv zeta. split; [reflexivity|].
  apply (expiry_releases_a_slot_that_is_still_booked _ _ _
           (mkBooking 2 1 "Bob" "bob@example.com" "222" "cs_bob" 4000 pending)
           Scenario.paid_booking
           (mkSlot 1 "Court A" 19725 "07:00:00" "08:30:00" 4000 5000 false));
    try reflexivity; cbn; auto.
Defined.

End MoreBookingFacts.

(** ** The customer's page and the service client *)

Section ClientFacts.

Import CreateBooking SlotPicker.

(** *** The order of the listing *)

Lemma ascii_compare_lt_trans (x y z : ascii) :
  Ascii.compare x y = Lt -> Ascii.compare y z = Lt -> Ascii.compare x z = Lt.
Proof.
  unfold Ascii.compare. rewrite !N.compare_lt_iff. apply N.lt_trans.
Qed.

Lemma string_leb_trans (a b c : string) :
  String.leb a b = true -> String.leb b c = true -> String.leb a c = true.
Proof.
  unfold String.leb. revert b c.
  induction a as [|x a IH]; intros [|y b] [|z c]; cbn [String.compare];
    try reflexivity; try discriminate.
  destruct (Ascii.compare x y) eqn:Exy; try discriminate;
    destruct (Ascii.compare y z) eqn:Eyz; try discriminate.
  - apply Ascii.compare_eq_iff in Exy, Eyz. subst y z.
    assert (E : Ascii.compare x x = Eq).
    { unfold Ascii.compare. apply N.compare_refl. }
    rewrite E. apply IH.
  - apply Ascii.compare_eq_iff in Exy. subst y. now rewrite Eyz.
  - apply Ascii.compare_eq_iff in Eyz. subst z. now rewrite Exy.
  - now rewrite (ascii_compare_lt_trans _ _ _ Exy Eyz).
Qed.

Lemma listed_before_total (a b : Slot) :
  listed_before a b = false -> listed_before b a = true.
Proof.
  unfold listed_before. intros H. apply orb_false_iff in H.
  destruct H as [Hlt H].
  destruct (Z.ltb_spec (slot_date b) (slot_date a)); [reflexivity|].
  destruct (Z.ltb_spec (slot_date a) (slot_date b)); [discriminate|].
  assert (E : slot_date a = slot_date b) by lia.
  rewrite E, Z.eqb_refl in *. cbn [andb orb] in *.
  destruct (String.leb_total (start_time a) (start_time b)); congruence.
Qed.

Lemma listed_before_trans (a b c : Slot) :
  listed_before a b = true -> listed_before b c = true ->
  listed_before a c = true.
Proof.
  unfold listed_before. rewrite !orb_true_iff, !andb_true_iff.
  rewrite !Z.ltb_lt, !Z.eqb_eq.
  intros [Hab|[Hab Sab]] [Hbc|[Hbc Sbc]]; try (left; lia).
  right. split; [lia|]. eapply string_leb_trans; eassumption.
Qed.

Lemma insert_row_In (x z : Slot) (l : list Slot) :
  In z (insert_row x l) <-> z = x \/ In z l.
Proof.
  induction l as [|y l IH]; cbn [insert_row In]; [intuition|].
  destruct (listed_before x y); cbn [In]; [intuition|].
  rewrite IH. intuition.
Qed.

Lemma order_rows_In (z : Slot) (l : list Slot) :
  In z (order_rows l) <-> In z l.
Proof.
  induction l as [|x l IH]; cbn [order_rows fold_right In]; [tauto|].
  fold (order_rows l). rewrite insert_row_In, IH. intuition.
Qed.

Lemma insert_row_sorted (x : Slot) (l : list Slot) :
  StronglySorted (fun a b => listed_before a b = true) l ->
  StronglySorted (fun a b => listed_before a b = true) (insert_row x l).
Proof.
  induction 1 as [|y l Hl IH Hy]; cbn [insert_row].
  - constructor; constructor.
  - destruct (listed_before x y) eqn:E.
    + constructor; [now constructor|]. constructor; [exact E|].
      eapply Forall_impl; [|exact Hy]. intros z. now apply listed_before_trans.
    + constructor; [exact IH|]. apply Forall_forall. intros z Hz.
      apply insert_row_In in Hz. destruct Hz as [->|Hz].
      * now apply listed_before_total.
      * rewrite Forall_forall in Hy. now apply Hy.
Qed.

Lemma order_rows_sorted (l : list Slot) :
  StronglySorted (fun a b => listed_before a b = true) (order_rows l).
Proof.
  induction l as [|x l IH]; cbn [order_rows fold_right]; [constructor|].
  now apply insert_row_sorted.
Qed.

Lemma StronglySorted_filter {A} (R : A -> A -> Prop) (f : A -> bool)
    (l : list A) :
  StronglySorted R l -> StronglySorted R (filter f l).
Proof.
  induction 1 as [|a l Hl IH Ha]; cbn [filter]; [constructor|].
  destruct (f a); [|exact IH]. constructor; [exact IH|].
  rewrite Forall_forall in *. intros b Hb. apply filter_In in Hb.
  now apply Ha.
Qed.

Lemma StronglySorted_app_inv {A} (R : A -> A -> Prop) (l1 l2 : list A) :
  StronglySorted R (l1 ++ l2) ->
  forall a b, In a l1 -> In b l2 -> R a b.
Proof.
  induction l1 as [|x l1 IH]; cbn [app]; intros H a b Ha Hb; [destruct Ha|].
  inversion H as [|? ? Hs Hx]; subst. destruct Ha as [->|Ha].
  - rewrite Forall_forall in Hx. apply Hx, in_or_app. now right.
  - now apply IH.
Qed.

Lemma In_firstn {A} (n : nat) (l : list A) (x : A) :
  In x (firstn n l) -> In x l.
Proof.
  intros H. rewrite <- (firstn_skipn n l). apply in_or_app. now left.
Qed.

(** *** The page *)

(** X16.  After a fetch that succeeds the page lists exactly the stored
    slots that are marked available and whose date lies between the two
    dates, ordered by date and then by start time, and stops showing the
    spinner.  After a fetch that fails it keeps the list it had.  Neither
    touches the selection. *)
Theorem fetchSlots_lists_what_is_on_offer (fetch_error : bool) (db : DB)
    (today nextWeek : Z) (st : State) :
  let st' := fetchSlots fetch_error db today nextWeek st in
  loading st' = false /\ selectedSlot st' = selectedSlot st /\
  (fetch_error = true -> slots st' = slots st) /\
  (fetch_error = false ->
   (forall s, In s (slots st') <->
              In s (available_slots db) /\ is_available s = true /\
              today <= slot_date s <= nextWeek) /\
   StronglySorted (fun a b => listed_before a b = true) (slots st')).
Proof.
  cbv zeta. unfold fetchSlots. destruct fetch_error; cbn [slots loading selectedSlot].
  - repeat split; auto; discriminate.
  - split; [reflexivity|]. split; [reflexivity|]. split; [discriminate|].
    intros _. split; [|apply order_rows_sorted].
    intros s. unfold query.
    rewrite order_rows_In, filter_In, !andb_true_iff, !Z.leb_le. tauto.
Qed.

Lemma fetchSlots_lists_what_is_on_offer_witness :
  In Scenario.morning_slot
     (slots (fetchSlots false Scenario.store 19720 19727 initial)).
Proof.
  apply (proj1 (proj2 (proj2 (proj2
           (fetchSlots_lists_what_is_on_offer false Scenario.store 19720 19727
              initial))) eq_refl)).
  split; [now left|]. split; [reflexivity|]. cbn. lia.
Defined.

(** X17.  The card of a court shows at most six buttons, all of them
    listed slots of that court; and after a fetch that succeeded they are
    the earliest ones: every slot shown comes, by date and start time, no
    later than every listed slot of the court that is not shown. *)
Theorem buttons_are_the_first_six (courtName : string) (db : DB)
    (today nextWeek : Z) (st : State) :
  let listed := slots (fetchSlots false db today nextWeek st) in
  (List.length (buttons courtName listed) <= 6)%nat /\
  (forall s, In s (buttons courtName listed) ->
             In s listed /\ court_name s = courtName) /\
  (forall a b,
      In a (buttons courtName listed) ->
      In b (skipn 6 (filter (fun slot => String.eqb (court_name slot) courtName)
                            listed)) ->
      listed_before a b = true).
Proof.
  cbv zeta. unfold buttons, fetchSlots. cbn [slots].
  set (l := query db today nextWeek).
  set (mine := filter (fun slot => String.eqb (court_name slot) courtName) l).
  split; [apply firstn_le_length|]. split.
  - intros s Hs. apply In_firstn in Hs. apply filter_In in Hs.
    destruct Hs as [Hin Hc]. apply String.eqb_eq in Hc. now split.
  - assert (Hsorted : StronglySorted (fun a b => listed_before a b = true) mine)
      by (apply StronglySorted_filter, order_rows_sorted).
    rewrite <- (firstn_skipn 6 mine) in Hsorted.
    exact (StronglySorted_app_inv _ _ _ Hsorted).
Qed.

Lemma buttons_are_the_first_six_witness :
  In Scenario.morning_slot
     (buttons "Court A"
        (slots (fetchSlots false Scenario.store 19720 19727 initial))) /\
  court_name Scenario.morning_slot = "Court A".
Proof.
  assert (H : In Scenario.morning_slot
                (buttons "Court A"
                   (slots (fetchSlots false Scenario.store 19720 19727 initial))))
    by (now left).
  split; [exact H|].
  exact (proj2 (proj1 (proj2 (buttons_are_the_first_six "Court A"
                                Scenario.store 19720 19727 initial)) _ H)).
Defined.

(** X18.  The page has a card for "Court A" and a card for "Court B" and
    no other: a slot of any other court, though listed by the fetch, is on
    no card.  A card carries the "No available slots" line exactly when it
    has no button. *)
Theorem only_two_courts_are_shown (st : State)
    (cards : list (string * list Slot * bool)) (form : option Slot) :
  render st = Page cards form ->
  loading st = false /\ form = selectedSlot st /\
  map (fun card => fst (fst card)) cards = ["Court A"; "Court B"] /\
  (forall card s,
      In card cards -> In s (snd (fst card)) ->
      In s (slots st) /\ court_name s = fst (fst card)) /\
  (forall s, court_name s <> "Court A" -> court_name s <> "Court B" ->
             forall card, In card cards -> ~ In s (snd (fst card))) /\
  (forall card, In card cards -> (snd card = true <-> snd (fst card) = [])).
Proof.
  unfold render. destruct (loading st); [discriminate|].
  cbn [map]. intros H. injection H as <- <-.
  split; [reflexivity|]. split; [reflexivity|]. split; [reflexivity|].
  split; [|split].
  - intros card s [<-|[<-|[]]] Hs; cbn [fst snd] in *; unfold buttons in Hs;
      apply In_firstn, filter_In in Hs; destruct Hs as [Hin He];
      apply String.eqb_eq in He; auto.
  - intros s HA HB card [<-|[<-|[]]] Hs; cbn [fst snd] in *;
      unfold buttons in Hs; apply In_firstn, filter_In in Hs;
      destruct Hs as [_ He]; apply String.eqb_eq in He; congruence.
  - intros card [<-|[<-|[]]]; cbn [fst snd]; unfold buttons;
      destruct (filter _ (slots st)); cbn; split; auto; discriminate.
Qed.

Lemma only_two_courts_are_shown_witness :
  let third := mkSlot 9 "Court C" 19725 "08:00:00" "09:30:00" 4000 4000 true in
  let st := fetchSlots false (mkDB [Scenario.morning_slot; third] [])
                       19720 19727 initial in
  In third (slots st) /\
  forall card,
    In card [("Court A", buttons "Court A" (slots st), false);
             ("Court B", buttons "Court B" (slots st), true)] ->
    ~ In third (snd (fst card)).
Proof.
  cbv zeta. split; [vm_compute; tauto|].
  apply (proj1 (proj2 (proj2 (proj2 (proj2
           (only_two_courts_are_shown
              (fetchSlots false
                 (mkDB [Scenario.morning_slot;
                        mkSlot 9 "Court C" 19725 "08:00:00" "09:30:00" 4000 4000
                               true] [])
                 19720 19727 initial)
              _ _ eq_refl)))))); discriminate.
Defined.

(** X19.  After a successful reservation whose update took effect, the
    rows of the booked slot are gone from what a fetch lists and every
    other listed row is listed as before. *)
Theorem booked_slot_leaves_the_listing (h : Handler) (req : Request)
    (o : Outcomes) (db : DB) (today nextWeek : Z) (s : Slot) :
  succeeded (response (create_booking h req o db)) = true ->
  update_error o = false ->
  In s (query (final_db (create_booking h req o db)) today nextWeek) <->
  In s (query db today nextWeek) /\ id s <> slotId req.
Proof.
  intros Hok Hu. rewrite create_booking_unfold in *. cbv zeta in *.
  destruct (if select_error o then None else _) as [slot|]; [|discriminate].
  destruct (gateway o) as [session|]; [|discriminate].
  destruct (insert_error o || _); [discriminate|].
  rewrite Hu. cbn [final_db fst].
  unfold query. rewrite !order_rows_In, !filter_In. cbn [available_slots].
  split.
  - intros [Hin Hp]. pose proof Hp as Hp'.
    rewrite !andb_true_iff in Hp'. destruct Hp' as [[Hav _] _].
    assert (Hne : id s <> slotId req).
    { intros He. unfold set_available in Hin. apply in_map_iff in Hin.
      destruct Hin as (r & Hr & _).
      destruct (Z.eqb_spec (id r) (slotId req)) as [_|Hne]; subst s;
        [discriminate|contradiction]. }
    split; [|exact Hne]. split; [|exact Hp].
    exact (proj1 (set_available_other false (slotId req) _ s Hne) Hin).
  - intros [[Hin Hp] Hne]. split; [|exact Hp].
    exact (proj2 (set_available_other false (slotId req) _ s Hne) Hin).
Qed.

Lemma booked_slot_leaves_the_listing_witness :
  In Scenario.morning_slot (query Scenario.store 19720 19727) /\
  ~ In Scenario.morning_slot
       (query (final_db (create_booking edge_function Scenario.alice
                           (Scenario.all_fine "cs_alice") Scenario.store))
              19720 19727).
Proof.
  split; [now left|]. intros H.
  apply (booked_slot_leaves_the_listing edge_function Scenario.alice
           (Scenario.all_fine "cs_alice") Scenario.store 19720 19727
           Scenario.morning_slot eq_refl eq_refl) in H.
  destruct H as [_ H]. now apply H.
Defined.

(** X20.  What the form shows matches the store.  A redirect goes to the
    session the gateway created and means that a pending booking for the
    slot of the form, with the contact typed in, was added; when the slot
    shown is still the stored row of its identifier, the amount of the
    booking is the base price of the slot shown.  An alert after a reply
    that arrived means that nothing was stored.  When the function could
    not be reached nothing was stored either; when only its reply got lost
    the form alerts "Booking failed" whatever the function did. *)
Theorem the_form_shows_what_happened (net : Network) (o : Outcomes)
    (message : string) (slot : Slot) (name email phone : string) (db : DB) :
  let r := handleSubmit net o message slot name email phone db in
  (forall url,
      snd r = Redirected url ->
      net = delivered /\
      exists session b,
        gateway o = Some session /\ url = session_secret session /\
        bookings (fst r) = bookings db ++ [b] /\
        slot_id b = id slot /\ customer_name b = name /\
        customer_email b = email /\ customer_phone b = phone /\
        status b = pending /\
        (NoDup (map id (available_slots db)) -> In slot (available_slots db) ->
         amount_paid_cents b = base_price_cents slot)) /\
  (forall text, net = delivered -> snd r = Alerted text -> fst r = db) /\
  (net = unreachable -> r = (db, Alerted "Booking failed")) /\
  (net = reply_lost ->
   r = (final_db (create_booking edge_function
                    (mkRequest (id slot) name email phone) o db),
        Alerted "Booking failed")).
Proof.
  cbv zeta. unfold handleSubmit.
  destruct net; cbn [fst snd];
    try (repeat split; auto; try discriminate; intros; discriminate).
  rewrite create_booking_unfold. cbv zeta. cbn [slotId].
  destruct (select_error o) eqn:Es;
    [cbn [final_db response fst snd]; repeat split; auto; discriminate|].
  destruct (single (select_available db (id slot))) as [row|] eqn:Esel;
    [|cbn [final_db response fst snd]; repeat split; auto; discriminate].
  destruct (gateway o) as [session|];
    [|cbn [final_db response fst snd]; repeat split; auto; discriminate].
  destruct (insert_error o || _);
    [cbn [final_db response fst snd]; repeat split; auto; discriminate|].
  cbn [final_db response fst snd success_body].
  split; [|repeat split; auto; discriminate].
  intros url [= <-]. split; [reflexivity|].
  exists session,
    (new_booking db (mkRequest (id slot) name email phone) row session).
  repeat split.
  - destruct (update_error o); reflexivity.
  - intros Hnd Hin. cbn [new_booking amount_paid_cents]. f_equal.
    apply single_select_available in Esel.
    destruct Esel as (Hrow & Hid & _ & _).
    now apply (row_of_id (available_slots db)).
Qed.

Lemma the_form_shows_what_happened_witness :
  let r := handleSubmit delivered (Scenario.all_fine "cs_alice") ""
             Scenario.morning_slot "Alice" "alice@example.com" "111"
             Scenario.store in
  snd r = Redirected "https://pay" /\
  exists session b,
    gateway (Scenario.all_fine "cs_alice") = Some session /\
    bookings (fst r) = bookings Scenario.store ++ [b] /\
    customer_name b = "Alice".
Proof.
  cbv zeta.
  assert (H : snd (handleSubmit delivered (Scenario.all_fine "cs_alice") ""
                     Scenario.morning_slot "Alice" "alice@example.com" "111"
                     Scenario.store) = Redirected "https://pay")
    by reflexivity.
  split; [exact H|].
  destruct (proj1 (the_form_shows_what_happened delivered
                     (Scenario.all_fine "cs_alice") "" Scenario.morning_slot
                     "Alice" "alice@example.com" "111" Scenario.store) _ H)
    as (_ & session & b & Hg & _ & Hb & _ & Hn & _).
  exists session, b. auto.
Defined.

End ClientFacts.

Section SupabaseAdminFacts.

Import SupabaseAdmin.

Lemma calls_in_turn_keeps (supabaseUrl : string) (envs : list Env) (c : Client) :
  calls_in_turn supabaseUrl envs (Some c) = Some c.
Proof.
  unfold calls_in_turn. induction envs as [|env envs IH]; [reflexivity|].
  exact IH.
Qed.

(** X21.  The service client is created at most once.  A call creates it
    only where [window] is not defined and the service role key is set and
    not empty, and then from the project URL and that key; once there is a
    client, every later call returns that same client whatever the
    environment has become; and calls made in the browser alone never
    create one. *)
Theorem service_client_is_created_once (supabaseUrl : string) :
  (forall env c,
      getSupabaseAdmin supabaseUrl env None = Some c ->
      window_defined env = false /\
      SUPABASE_SERVICE_ROLE_KEY env = Some (client_key c) /\
      client_key c <> "" /\ client_url c = supabaseUrl) /\
  (forall first later c,
      calls_in_turn supabaseUrl first None = Some c ->
      calls_in_turn supabaseUrl (first ++ later) None = Some c) /\
  (forall envs,
      Forall (fun env => window_defined env = true) envs ->
      calls_in_turn supabaseUrl envs None = None).
Proof.
  split; [|split].
  - intros env c. unfold getSupabaseAdmin.
    destruct (window_defined env); [discriminate|]. cbn [negb].
    destruct (SUPABASE_SERVICE_ROLE_KEY env) as [k|]; [|discriminate].
    destruct (String.eqb_spec k ""); [discriminate|].
    intros [= <-]. cbn. auto.
  - intros first later c H. unfold calls_in_turn in *.
    rewrite fold_left_app, H. apply calls_in_turn_keeps.
  - intros envs H. unfold calls_in_turn.
    induction H as [|env envs Hw _ IH]; [reflexivity|].
    cbn [fold_left getSupabaseAdmin]. rewrite Hw. exact IH.
Qed.

Lemma service_client_is_created_once_witness :
  let server := mkEnv false (Some "service-key") in
  let rotated := mkEnv false (Some "another-key") in
  calls_in_turn "https://project" [server] None
  = Some (mkClient "https://project" "service-key") /\
  calls_in_turn "https://project" ([server] ++ [rotated; server]) None
  = Some (mkClient "https://project" "service-key").
Proof.
  cbv zeta.
  assert (H : calls_in_turn "https://project"
                [mkEnv false (Some "service-key")] None
              = Some (mkClient "https://project" "service-key"))
    by reflexivity.
  split; [exact H|].
  exact (proj1 (proj2 (service_client_is_created_once "https://project"))
               _ _ _ H).
Defined.

End SupabaseAdminFacts.
